(** * note_csystem: the issue-body mini-parser and the article codec

    A shallow embedding of the parsing and serialization layer of the
    repository (src/services/github.ts, src/agents/article-generator.ts,
    src/services/note-api.ts, src/workflows/regenerate-article.ts and
    src/workflows/publish-to-note.ts), together with the properties the
    specification states about it.

    JavaScript strings are sequences of UTF-16 code units: a string is a
    [list N], and the character classes of the regular expressions of the
    source ([\s], [.], [\d]) are the ECMAScript ones. *)

From Stdlib Require Import NArith List Ascii String Lia Bool.
From Stdlib Require Import Decimal DecimalN DecimalPos.
From stdpp Require Import base option list gmap sorting.

Local Open Scope N_scope.

(** ** JavaScript strings *)

Module JS.

Abbreviation jsstring := (list N).

(** Source literals are written as in the TypeScript files; [js] decodes
    the UTF-8 bytes of a literal into UTF-16 code units. *)
Fixpoint utf8_decode (bs : list N) : jsstring :=
  match bs with
  | [] => []
  | b :: r =>
      if b <? 0x80 then b :: utf8_decode r
      else if b <? 0xE0 then
        match r with
        | b1 :: r1 =>
            N.lor (N.shiftl (N.land b 0x1F) 6) (N.land b1 0x3F) :: utf8_decode r1
        | [] => []
        end
      else if b <? 0xF0 then
        match r with
        | b1 :: b2 :: r2 =>
            N.lor (N.shiftl (N.land b 0x0F) 12)
              (N.lor (N.shiftl (N.land b1 0x3F) 6) (N.land b2 0x3F))
            :: utf8_decode r2
        | _ => []
        end
      else
        match r with
        | b1 :: b2 :: b3 :: r3 =>
            let cp :=
              N.lor (N.shiftl (N.land b 0x07) 18)
                (N.lor (N.shiftl (N.land b1 0x3F) 12)
                   (N.lor (N.shiftl (N.land b2 0x3F) 6) (N.land b3 0x3F))) in
            let v := cp - 0x10000 in
            (0xD800 + N.shiftr v 10) :: (0xDC00 + N.land v 0x3FF) :: utf8_decode r3
        | _ => []
        end
  end.

Definition js (s : string) : jsstring :=
  utf8_decode (map N_of_ascii (list_ascii_of_string s)).

Definition nl : N := 10.
Definition dquote : N := 34.

(** ECMAScript WhiteSpace and LineTerminator; [\s] and [trim] use their
    union, [.] excludes the line terminators. *)
Definition isLineTerminator (c : N) : bool :=
  (c =? 0x0A) || (c =? 0x0D) || (c =? 0x2028) || (c =? 0x2029).

Definition isWhiteSpace (c : N) : bool :=
  (c =? 0x09) || (c =? 0x0B) || (c =? 0x0C) || (c =? 0x20) || (c =? 0xA0)
  || (c =? 0x1680) || ((0x2000 <=? c) && (c <=? 0x200A))
  || (c =? 0x202F) || (c =? 0x205F) || (c =? 0x3000) || (c =? 0xFEFF).

(** [\s] *)
Definition isSpace (c : N) : bool := isWhiteSpace c || isLineTerminator c.

(** [.] without the [s] flag *)
Definition isDot (c : N) : bool := negb (isLineTerminator c).

(** [\d] *)
Definition isDigit (c : N) : bool := (0x30 <=? c) && (c <=? 0x39).

Fixpoint takeWhile (p : N -> bool) (s : jsstring) : jsstring :=
  match s with
  | [] => []
  | c :: r => if p c then c :: takeWhile p r else []
  end.

Fixpoint dropWhile (p : N -> bool) (s : jsstring) : jsstring :=
  match s with
  | [] => []
  | c :: r => if p c then dropWhile p r else s
  end.

Definition trimStart (s : jsstring) : jsstring := dropWhile isSpace s.
Definition trimEnd (s : jsstring) : jsstring := rev (dropWhile isSpace (rev s)).
Definition trim (s : jsstring) : jsstring := trimEnd (trimStart s).

(** [s.startsWith(p)], returning what follows the prefix. *)
Fixpoint stripPrefix (p s : jsstring) : option jsstring :=
  match p with
  | [] => Some s
  | a :: p' =>
      match s with
      | [] => None
      | b :: s' => if a =? b then stripPrefix p' s' else None
      end
  end.

Definition startsWith (s p : jsstring) : bool := bool_decide (is_Some (stripPrefix p s)).

(** [s.includes(sub)] *)
Fixpoint includes (s sub : jsstring) : bool :=
  if startsWith s sub then true
  else match s with
       | [] => false
       | _ :: r => includes r sub
       end.

(** [s.split(sep)] for a one-character separator: never an empty array. *)
Fixpoint split (sep : N) (s : jsstring) : list jsstring :=
  match s with
  | [] => [[]]
  | c :: r =>
      if c =? sep then [] :: split sep r
      else match split sep r with
           | l :: ls => (c :: l) :: ls
           | [] => [[c]]
           end
  end.

(** [a.join(sep)] *)
Fixpoint join (sep : jsstring) (ls : list jsstring) : jsstring :=
  match ls with
  | [] => []
  | [l] => l
  | l :: ls' => l ++ sep ++ join sep ls'
  end.

(** An unanchored regular expression search: the anchored matcher [m] is
    tried at every start position from left to right, the position after
    the last character included; the text before the match is returned
    with the matcher's result. *)
Fixpoint search {A} (m : jsstring -> option A) (s : jsstring) : option (jsstring * A) :=
  match m s with
  | Some r => Some ([], r)
  | None =>
      match s with
      | [] => None
      | c :: s' =>
          match search m s' with
          | Some (pre, r) => Some (c :: pre, r)
          | None => None
          end
      end
  end.

(** Decimal digits of a non-negative integer, as [String(n)] prints an
    integer below 10^21. *)
Fixpoint uintChars (d : Decimal.uint) : jsstring :=
  match d with
  | Nil => []
  | D0 r => 0x30 :: uintChars r
  | D1 r => 0x31 :: uintChars r
  | D2 r => 0x32 :: uintChars r
  | D3 r => 0x33 :: uintChars r
  | D4 r => 0x34 :: uintChars r
  | D5 r => 0x35 :: uintChars r
  | D6 r => 0x36 :: uintChars r
  | D7 r => 0x37 :: uintChars r
  | D8 r => 0x38 :: uintChars r
  | D9 r => 0x39 :: uintChars r
  end.

Definition numberToString (n : N) : jsstring := uintChars (N.to_uint n).

(** [parseInt(s, 10)] on a run of decimal digits. *)
Definition parseDigits (s : jsstring) : N :=
  fold_left (fun acc c => 10 * acc + (c - 0x30)) s 0.

(** [\w] *)
Definition isWord (c : N) : bool :=
  ((0x41 <=? c) && (c <=? 0x5A)) || ((0x61 <=? c) && (c <=? 0x7A))
  || isDigit c || (c =? 0x5F).

(** [s.endsWith(suffix)] *)
Definition endsWith (s suffix : jsstring) : bool := startsWith (rev s) (rev suffix).

(** [s.replace(/re/g, replacement)] for a pattern that matches no empty
    text: the matcher [m] gives, at a position, the replacement and the
    length of the match; the search resumes after each match, [skip]
    counting the characters of the last match still to pass. *)
Fixpoint replaceAll (m : jsstring -> option (jsstring * nat)) (skip : nat)
    (s : jsstring) : jsstring :=
  match s with
  | [] => []
  | c :: s' =>
      match skip with
      | S k => replaceAll m k s'
      | O =>
          match m s with
          | Some (rep, len) => rep ++ replaceAll m (len - 1) s'
          | None => c :: replaceAll m 0 s'
          end
      end
  end.

(** [s.replace(pattern, replacement)] for a string pattern and a
    replacement without dollar sign: the first occurrence only. *)
Definition replaceFirst (pattern replacement s : jsstring) : jsstring :=
  match search (stripPrefix pattern) s with
  | Some (pre, rest) => pre ++ replacement ++ rest
  | None => s
  end.

(** The order of [Array.prototype.sort] without comparator, on strings:
    code unit by code unit, a prefix first. *)
Fixpoint lexleb (a b : jsstring) : bool :=
  match a, b with
  | [], _ => true
  | _ :: _, [] => false
  | x :: a', y :: b' =>
      if x <? y then true else if y <? x then false else lexleb a' b'
  end.

Definition lexle (a b : jsstring) : Prop := lexleb a b = true.

#[global] Instance lexle_dec (a b : jsstring) : Decision (lexle a b) :=
  decide (lexleb a b = true).

(** [a.sort()] on an array of strings. *)
Definition sortStrings (a : list jsstring) : list jsstring := merge_sort lexle a.

(** [String(n)] for an integer. *)
Definition intToString (z : Z) : jsstring :=
  if (z <? 0)%Z then 0x2D :: numberToString (Z.to_N (Z.abs z))
  else numberToString (Z.to_N z).

End JS.

Import JS.

(** ** Data model (src/types/article.ts) *)

Inductive Tone := casual | business | technical.

Definition toneName (t : Tone) : jsstring :=
  match t with
  | casual => js "casual"
  | business => js "business"
  | technical => js "technical"
  end.

(** Optional fields ([field?: T]) are options. *)
Record ArticleRequest := {
  theme : jsstring;
  req_targetAudience : option jsstring;
  req_tone : option Tone;
  targetLength : option N;
  additionalInstructions : option jsstring;
  references : option (list jsstring)
}.

Record ArticleMetadata := {
  issueNumber : N;
  tone : jsstring;
  targetAudience : jsstring;
  suggestedTags : list jsstring
}.

(** A [Date] is its time value, milliseconds since the epoch. *)
Record GeneratedArticle := {
  title : jsstring;
  content : jsstring;
  summary : jsstring;
  wordCount : N;
  generatedAt : Z;
  metadata : ArticleMetadata
}.

Record FeedbackRequest := {
  feedback : jsstring;
  command : option jsstring;
  originalArticle : GeneratedArticle
}.

(** [body] is guarded by [issue.body || ''] in the source: [None] is the
    null body of an issue without description. *)
Record GitHubIssue := {
  number : N;
  issue_title : jsstring;
  body : option jsstring;
  labels : list jsstring
}.

(** ** Errors

    A thrown [Error] is a result carrying the message. *)
Inductive result (A : Type) :=
| Ok (a : A)
| Throw (msg : jsstring).
Arguments Ok {A} a.
Arguments Throw {A} msg.

#[global] Instance result_ret : MRet result := fun A a => Ok a.
#[global] Instance result_fmap : FMap result := fun A B f r =>
  match r with
  | Ok a => Ok (f a)
  | Throw m => Throw m
  end.
#[global] Instance result_bind : MBind result := fun A B k r =>
  match r with
  | Ok a => k a
  | Throw m => Throw m
  end.

(** [a || d] on a possibly undefined string: the empty string is falsy. *)
Definition orElse (a : option jsstring) (d : jsstring) : jsstring :=
  match a with
  | Some (c :: s) => c :: s
  | _ => d
  end.

(** ** The generation service (collaborator)

    [anthropic.messages.create]: an arbitrary function of the call's
    ordinal within the run and of its parameters; it can fail. *)
Inductive ContentBlock :=
| TextBlock (text : jsstring)
| OtherBlock.

Record CreateParams := {
  max_tokens : N;
  system : option jsstring;
  user_content : jsstring
}.

Definition Service := nat -> CreateParams -> result (list ContentBlock).

(** ** src/agents/article-generator.ts *)

Definition lines (ls : list jsstring) : jsstring := join [nl] ls.

Definition SYSTEM_PROMPT : jsstring := lines [
  js "あなたはプロのライター兼コンテンツクリエイターです。";
  js "note.comに投稿する記事を生成します。";
  js "";
  js "以下のガイドラインに従ってください：";
  js "1. 読者を引き込む魅力的な導入を書く";
  js "2. 見出しを効果的に使用して構造化する";
  js "3. 具体例や事例を含める";
  js "4. 読みやすい文章を心がける";
  js "5. 最後に読者へのアクションを促す締めくくりを入れる";
  js "";
  js "出力形式：";
  js "- Markdown形式で出力";
  js "- 最初の行は # で始まるタイトル";
  js "- 適切な見出し(##, ###)を使用";
  js "- 箇条書きや強調を効果的に使用" ].

Definition getToneInstructions (t : Tone) : jsstring :=
  match t with
  | casual => js "親しみやすく、カジュアルなトーンで書いてください。「〜ですよね」「〜しましょう！」などの表現を使ってOKです。"
  | business => js "ビジネスパーソン向けの落ち着いたトーンで書いてください。専門用語は適度に使いつつ、わかりやすさを重視してください。"
  | technical => js "技術者向けの正確なトーンで書いてください。専門用語を適切に使用し、具体的なコード例や技術的な詳細を含めてください。"
  end.

Definition buildUserPrompt (request : ArticleRequest)
    (toneInstructions lengthInstructions : jsstring) : jsstring :=
  let prompt0 := lines [
    js "以下のテーマで記事を書いてください。"; js "";
    js "## テーマ"; theme request; js "";
    js "## トーン"; toneInstructions; js "";
    js "## 文字数"; lengthInstructions; js "" ] in
  let prompt1 :=
    match req_targetAudience request with
    | Some (c :: a) => prompt0 ++ lines [js ""; js "## ターゲット読者"; c :: a; js ""]
    | _ => prompt0
    end in
  let prompt2 :=
    match additionalInstructions request with
    | Some (c :: a) => prompt1 ++ lines [js ""; js "## 追加の指示"; c :: a; js ""]
    | _ => prompt1
    end in
  let prompt3 :=
    match references request with
    | Some (r :: rs) => prompt2 ++ lines [js ""; js "## 参考URL"; lines (r :: rs); js ""]
    | _ => prompt2
    end in
  prompt3 ++ lines [js ""; js "記事全文をMarkdown形式で出力してください。"].

Definition isTextBlock (b : ContentBlock) : bool :=
  match b with
  | TextBlock _ => true
  | OtherBlock => false
  end.

Definition extractTextContent (response : list ContentBlock) : result jsstring :=
  match List.find isTextBlock response with
  | Some (TextBlock text) => Ok text
  | _ => Throw (js "No text content in response")
  end.

(** [line.replace(/^#\s+/, '')] *)
Definition stripHashSpaces (line : jsstring) : jsstring :=
  match line with
  | h :: c :: r => if (h =? 0x23) && isSpace c then dropWhile isSpace r else line
  | _ => line
  end.

(** [line.replace(/^#+\s*/, '')] *)
Definition stripHashes (line : jsstring) : jsstring :=
  match line with
  | h :: r => if h =? 0x23 then dropWhile isSpace (dropWhile (N.eqb 0x23) r) else line
  | [] => line
  end.

(** The [for] loop of [parseArticleContent] from index [i] on: the title
    and [bodyStartIndex] when it breaks, their initial values otherwise. *)
Fixpoint titleLoop (ls : list jsstring) (i : nat) : jsstring * nat :=
  match ls with
  | [] => ([], 0%nat)
  | l :: rest =>
      let line := trim l in
      if startsWith line (js "# ") then (stripHashSpaces line, S i)
      else titleLoop rest (S i)
  end.

Definition parseArticleContent (content : jsstring) : jsstring * jsstring :=
  let lines := split nl (trim content) in
  let '(title, bodyStartIndex) := titleLoop lines 0%nat in
  let '(title, bodyStartIndex) :=
    match title, lines with
    | [], l0 :: _ => (stripHashes l0, 1%nat)
    | _, _ => (title, bodyStartIndex)
    end in
  let body := trim (join [nl] (drop bodyStartIndex lines)) in
  (title, body).

(** [text.replace(/\s/g, '').length] *)
Definition countCharacters (text : jsstring) : N :=
  N.of_nat (length (List.filter (fun c => negb (isSpace c)) text)).

Section Generator.

Variable create : Service.

Definition generateSummary (call : nat) (content : jsstring) : result jsstring :=
  response ← create call {|
    max_tokens := 200; system := None;
    user_content := js "以下の記事を2-3文で要約してください:" ++ [nl; nl] ++ content |};
  extractTextContent response.

(** [text.split(',').map((tag) => tag.trim()).filter(Boolean)] *)
Definition splitTags (text : jsstring) : list jsstring :=
  List.filter (fun t => negb (bool_decide (t = []))) (map trim (split 0x2C text)).

Definition suggestTags (call : nat) (title content : jsstring) : result (list jsstring) :=
  response ← create call {|
    max_tokens := 100; system := None;
    user_content := lines [
      js "以下の記事に適したタグを5つ提案してください。カンマ区切りで出力してください。";
      js "";
      js "タイトル: " ++ title;
      js "";
      take 500 content ++ js "..." ] |};
  text ← extractTextContent response;
  mret (splitTags text).

Definition generateArticle (now : Z) (request : ArticleRequest) : result GeneratedArticle :=
  let toneInstructions := getToneInstructions (default casual (req_tone request)) in
  let lengthInstructions :=
    js "目標文字数は"
    ++ numberToString (match targetLength request with Some 0 | None => 2000 | Some n => n end)
    ++ js "文字程度です。" in
  let userPrompt := buildUserPrompt request toneInstructions lengthInstructions in
  response ← create 0%nat {|
    max_tokens := 4096; system := Some SYSTEM_PROMPT; user_content := userPrompt |};
  content ← extractTextContent response;
  let '(title, body) := parseArticleContent content in
  summary ← generateSummary 1%nat body;
  tags ← suggestTags 2%nat title body;
  mret {|
    title := title;
    content := body;
    summary := summary;
    wordCount := countCharacters body;
    generatedAt := now;
    metadata := {|
      issueNumber := 0;
      tone := toneName (default casual (req_tone request));
      targetAudience := orElse (req_targetAudience request) (js "一般読者");
      suggestedTags := tags |} |}.

Definition commandLine (request : FeedbackRequest) (cmd text : string) : jsstring :=
  if bool_decide (command request = Some (js cmd)) then js text else [].

Definition regenerateWithFeedback (now : Z) (request : FeedbackRequest)
    : result GeneratedArticle :=
  let userPrompt := lines [
    js "";
    js "以下の記事に対してフィードバックがありました。フィードバックを反映して記事を改善してください。";
    js "";
    js "## 元の記事";
    content (originalArticle request);
    js "";
    js "## フィードバック";
    feedback request;
    js "";
    commandLine request "/shorter" "文字数を減らしてより簡潔にしてください。";
    commandLine request "/longer" "内容を充実させて文字数を増やしてください。";
    commandLine request "/casual" "トーンをよりカジュアルに、親しみやすくしてください。";
    commandLine request "/formal" "トーンをよりフォーマルに、ビジネス向けにしてください。";
    js "";
    js "改善した記事全文をMarkdown形式で出力してください。" ] in
  response ← create 0%nat {|
    max_tokens := 4096; system := Some SYSTEM_PROMPT; user_content := userPrompt |};
  content ← extractTextContent response;
  let '(title, body) := parseArticleContent content in
  summary ← generateSummary 1%nat body;
  mret {|
    title := title;
    content := body;
    summary := summary;
    wordCount := countCharacters body;
    generatedAt := now;
    metadata := {|
      issueNumber := issueNumber (metadata (originalArticle request));
      tone := tone (metadata (originalArticle request));
      targetAudience := targetAudience (metadata (originalArticle request));
      suggestedTags := suggestedTags (metadata (originalArticle request)) |} |}.

End Generator.

(** ** src/services/github.ts *)

(** [line.match(/^##\s+(.+)$/)] on a line, capture group 1: [\s+] gives
    characters back, from the [k] it first takes, until what follows is a
    non-empty run of [.] reaching the end of the line. *)
Fixpoint headingGroup (k : nat) (r : jsstring) : option jsstring :=
  match k with
  | O => None
  | S k' =>
      let g := drop (S k') r in
      if negb (bool_decide (g = [])) && forallb isDot g then Some g
      else headingGroup k' r
  end.

Definition sectionMatch (line : jsstring) : option jsstring :=
  match stripPrefix (js "##") line with
  | Some r => headingGroup (length (takeWhile isSpace r)) r
  | None => None
  end.

(** [sections[name] = text] on a plain object: the assignment of a string
    to [__proto__] creates no property. *)
Definition setSection (sections : gmap jsstring jsstring) (name text : jsstring)
    : gmap jsstring jsstring :=
  if bool_decide (name = js "__proto__") then sections else <[name := text]> sections.

Record SectionState := {
  sections : gmap jsstring jsstring;
  currentSection : jsstring;
  currentContent : list jsstring
}.

(** [if (currentSection) sections[currentSection] = currentContent.join('\n').trim()] *)
Definition flushSection (st : SectionState) : gmap jsstring jsstring :=
  match currentSection st with
  | [] => sections st
  | name => setSection (sections st) name (trim (join [nl] (currentContent st)))
  end.

Definition sectionStep (st : SectionState) (line : jsstring) : SectionState :=
  match sectionMatch line with
  | Some g =>
      {| sections := flushSection st; currentSection := trim g; currentContent := [] |}
  | None =>
      match currentSection st with
      | [] => st
      | _ =>
          {| sections := sections st; currentSection := currentSection st;
             currentContent := currentContent st ++ [line] |}
      end
  end.

Definition parseIssueSections (body : jsstring) : gmap jsstring jsstring :=
  flushSection
    (fold_left sectionStep (split nl body)
       {| sections := ∅; currentSection := []; currentContent := [] |}).

(** [[^\s)>\]]] *)
Definition isUrlChar (c : N) : bool :=
  negb (isSpace c || (c =? 0x29) || (c =? 0x3E) || (c =? 0x5D)).

(** [:\/\/[^\s)>\]]+] after the scheme *)
Definition urlRest (scheme r : jsstring) : option jsstring :=
  match stripPrefix (js "://") r with
  | Some t =>
      match takeWhile isUrlChar t with
      | [] => None
      | run => Some (scheme ++ js "://" ++ run)
      end
  | None => None
  end.

(** The match of [/https?:\/\/[^\s)>\]]+/] at the start of [s]. *)
Definition urlAt (s : jsstring) : option jsstring :=
  match stripPrefix (js "http") s with
  | Some r =>
      match
        match stripPrefix (js "s") r with
        | Some r' => urlRest (js "https") r'
        | None => None
        end
      with
      | Some m => Some m
      | None => urlRest (js "http") r
      end
  | None => None
  end.

(** [body.match(/.../g)]: the search resumes after each match; [skip]
    counts the characters of the last match still to pass. *)
Fixpoint matchAll (skip : nat) (s : jsstring) : list jsstring :=
  match s with
  | [] => []
  | _ :: s' =>
      match skip with
      | S k => matchAll k s'
      | O =>
          match urlAt s with
          | Some m => m :: matchAll (length m - 1) s'
          | None => matchAll 0 s'
          end
      end
  end.

Definition extractReferences (body : jsstring) : list jsstring := matchAll 0 body.

(** [/(\d+)/] at a position *)
Definition digitsAt (s : jsstring) : option jsstring :=
  match takeWhile isDigit s with
  | [] => None
  | ds => Some ds
  end.

(** [title.replace(/^記事作成[:：]\s*/, '')] *)
Definition stripTitlePrefix (title : jsstring) : jsstring :=
  match stripPrefix (js "記事作成") title with
  | Some (c :: r) =>
      if (c =? 0x3A) || (c =? 0xFF1A) then dropWhile isSpace r else title
  | _ => title
  end.

Definition parseIssueToArticleRequest (issue : GitHubIssue) : ArticleRequest :=
  let body := orElse (body issue) [] in
  let sections := parseIssueSections body in
  let toneText := orElse (sections !! js "トーン") (orElse (sections !! js "tone") []) in
  let tone :=
    if includes toneText (js "ビジネス") || includes toneText (js "business") then business
    else if includes toneText (js "技術") || includes toneText (js "technical") then technical
    else casual in
  let lengthText := orElse (sections !! js "文字数") (orElse (sections !! js "length") []) in
  let lengthMatch := search digitsAt lengthText in
  let targetLength :=
    match lengthMatch with
    | Some (_, ds) => parseDigits ds
    | None => 2000
    end in
  {| theme :=
       orElse (sections !! js "テーマ")
         (orElse (sections !! js "theme") (stripTitlePrefix (issue_title issue)));
     req_targetAudience :=
       Some (orElse (sections !! js "ターゲット読者") (orElse (sections !! js "target") []));
     req_tone := Some tone;
     targetLength := Some targetLength;
     additionalInstructions :=
       Some (orElse (sections !! js "追加指示")
               (orElse (sections !! js "参考にしてほしいこと") []));
     references := Some (extractReferences body) |}.

(** ** src/services/note-api.ts *)

(** [Date.prototype.toISOString] of a time value: the proleptic Gregorian
    date of the day number, then the time of day. *)
Definition pad (width : nat) (n : N) : jsstring :=
  let ds := numberToString n in
  repeat 0x30 (width - length ds)%nat ++ ds.

Definition civilFromDays (days : Z) : Z * Z * Z :=
  let z := (days + 719468)%Z in
  let era := (z / 146097)%Z in
  let doe := (z - era * 146097)%Z in
  let yoe := ((doe - doe / 1460 + doe / 36524 - doe / 146096) / 365)%Z in
  let doy := (doe - (365 * yoe + yoe / 4 - yoe / 100))%Z in
  let mp := ((5 * doy + 2) / 153)%Z in
  let d := (doy - (153 * mp + 2) / 5 + 1)%Z in
  let m := (if mp <? 10 then mp + 3 else mp - 9)%Z in
  let y := (yoe + era * 400 + (if m <=? 2 then 1 else 0))%Z in
  (y, m, d).

Definition yearString (y : Z) : jsstring :=
  if ((0 <=? y) && (y <=? 9999))%Z then pad 4 (Z.to_N y)
  else (if (y <? 0)%Z then 0x2D else 0x2B) :: pad 6 (Z.to_N (Z.abs y)).

Definition toISOString (t : Z) : jsstring :=
  let '(y, m, d) := civilFromDays (t / 86400000) in
  let ms := (t mod 86400000)%Z in
  yearString y ++ js "-" ++ pad 2 (Z.to_N m) ++ js "-" ++ pad 2 (Z.to_N d)
  ++ js "T" ++ pad 2 (Z.to_N (ms / 3600000))
  ++ js ":" ++ pad 2 (Z.to_N (ms / 60000 mod 60))
  ++ js ":" ++ pad 2 (Z.to_N (ms / 1000 mod 60))
  ++ js "." ++ pad 3 (Z.to_N (ms mod 1000)) ++ js "Z".

(** *** Branch and file names (src/services/github.ts) *)

(** The slug of a title, written out in [generateBranchName],
    [generateArticleFilename] and [saveArticleAsMarkdown]:
    [title.toLowerCase().replace(/[^a-z0-9\u3040-\u309f\u30a0-\u30ff\u4e00-\u9faf]+/g, '-')
    .replace(/^-|-$/g, '').slice(0, n)]. [String.prototype.toLowerCase]
    follows the Unicode case mappings; it is a parameter here. *)
Definition isSlugChar (c : N) : bool :=
  ((0x61 <=? c) && (c <=? 0x7A)) || ((0x30 <=? c) && (c <=? 0x39))
  || ((0x3040 <=? c) && (c <=? 0x309F)) || ((0x30A0 <=? c) && (c <=? 0x30FF))
  || ((0x4E00 <=? c) && (c <=? 0x9FAF)).

(** Every run of other characters becomes one hyphen; [inRun] tells that
    the hyphen of the current run is written. *)
Fixpoint dashRuns (inRun : bool) (s : jsstring) : jsstring :=
  match s with
  | [] => []
  | c :: r =>
      if isSlugChar c then c :: dashRuns false r
      else if inRun then dashRuns true r
      else 0x2D :: dashRuns true r
  end.

(** [s.replace(/^-|-$/g, '')] *)
Definition dropFirstDash (s : jsstring) : jsstring :=
  match s with
  | c :: r => if c =? 0x2D then r else s
  | [] => []
  end.

Definition dropLastDash (s : jsstring) : jsstring :=
  match rev s with
  | c :: r => if c =? 0x2D then rev r else s
  | [] => []
  end.

Definition trimDashes (s : jsstring) : jsstring := dropLastDash (dropFirstDash s).

(** [new Date().toISOString().split('T')[0]] *)
Definition isoDate (now : Z) : jsstring := hd [] (split 0x54 (toISOString now)).

Section Slug.

Variable toLowerCase : jsstring -> jsstring.

Definition slug (n : nat) (title : jsstring) : jsstring :=
  take n (trimDashes (dashRuns false (toLowerCase title))).

Definition generateBranchName (now : Z) (issueNumber : N) (title : jsstring) : jsstring :=
  js "article/issue-" ++ numberToString issueNumber ++ js "-" ++ slug 30 title
  ++ js "-" ++ intToString now.

Definition generateArticleFilename (now : Z) (title : jsstring) : jsstring :=
  js "articles/" ++ isoDate now ++ js "-" ++ slug 50 title ++ js ".md".

End Slug.

(** [s.replace(/\x22/g, r)], [\x22] being the double quote *)
Definition replaceQuotes (r s : jsstring) : jsstring :=
  flat_map (fun c => if c =? dquote then r else [c]) s.

Definition quoted (s : jsstring) : jsstring := dquote :: s ++ [dquote].

(** The front matter of the document, the lines between the two [---]. *)
Definition frontMatter (article : GeneratedArticle) : list jsstring := [
  js "title: " ++ quoted (title article);
  js "summary: " ++ quoted (replaceQuotes [0x5C; dquote] (summary article));
  js "tags: [" ++ join (js ", ") (map quoted (suggestedTags (metadata article))) ++ js "]";
  js "issueNumber: " ++ numberToString (issueNumber (metadata article));
  js "generatedAt: " ++ quoted (toISOString (generatedAt article));
  js "wordCount: " ++ numberToString (wordCount article);
  js "tone: " ++ quoted (tone (metadata article));
  js "targetAudience: " ++ quoted (targetAudience (metadata article)) ].

(** [saveArticleAsMarkdown]: the text it writes to the article file (the
    file name and the write itself are outside the model). *)
Definition saveArticleAsMarkdown (article : GeneratedArticle) : jsstring :=
  lines ([js "---"] ++ frontMatter article ++ [
    js "---";
    js "";
    js "# " ++ title article;
    js "";
    content article;
    js "";
    js "---";
    js "";
    js "*この記事はAIによって生成されました。*";
    js "" ]).

(** The [filename] of [saveArticleAsMarkdown], joined to [outputDir] for
    the path of the file. *)
Definition saveArticleFilename (toLowerCase : jsstring -> jsstring) (now : Z)
    (article : GeneratedArticle) : jsstring :=
  isoDate now ++ js "-" ++ slug toLowerCase 50 (title article) ++ js ".md".

(** [/```(\w+)\n/] at a position: the replacement and the length of the
    match. *)
Definition fenceAt (s : jsstring) : option (jsstring * nat) :=
  match stripPrefix (js "```") s with
  | Some r =>
      match takeWhile isWord r, dropWhile isWord r with
      | (_ :: _) as w, c :: _ =>
          if c =? nl then Some (js "```" ++ [nl], (3 + length w + 1)%nat) else None
      | _, _ => None
      end
  | None => None
  end.

(** The image pattern at a position: an exclamation mark, an alt text in
    square brackets (any characters but the closing one, group 1) and an
    address in parentheses (one character at least, none the closing
    parenthesis, group 2); the replacement is ['![$1]($2)']. *)
Definition imageAt (s : jsstring) : option (jsstring * nat) :=
  match stripPrefix (js "![") s with
  | Some r =>
      let alt := takeWhile (fun c => negb (c =? 0x5D)) r in
      match stripPrefix (js "](") (dropWhile (fun c => negb (c =? 0x5D)) r) with
      | Some r2 =>
          let url := takeWhile (fun c => negb (c =? 0x29)) r2 in
          match url, dropWhile (fun c => negb (c =? 0x29)) r2 with
          | _ :: _, _ :: _ =>
              Some (js "![" ++ alt ++ js "](" ++ url ++ js ")",
                    (2 + length alt + 2 + length url + 1)%nat)
          | _, _ => None
          end
      | None => None
      end
  | None => None
  end.

Definition formatForNote (article : GeneratedArticle) : jsstring :=
  let content := content article in
  let content := replaceAll fenceAt 0 content in
  let content := replaceAll imageAt 0 content in
  js "# " ++ title article ++ [nl; nl] ++ content.

Definition generateClipboardText (article : GeneratedArticle) : jsstring :=
  formatForNote article.

(** ** Loading a persisted article

    [loadArticle] is modelled on the text [fs.readFile] returns. *)

(** The longest prefix of [s] that is followed by [c]: the capture of a
    greedy [.*] before [c]. *)
Fixpoint uptoLast (c : N) (s : jsstring) : option jsstring :=
  match s with
  | [] => None
  | x :: r =>
      match uptoLast c r with
      | Some t => Some (x :: t)
      | None => if x =? c then Some [] else None
      end
  end.

(** At a position: [key], the capture of a greedy [.*], [close]; the
    capture stays on the line. *)
Definition fieldAt (key : jsstring) (close : N) (s : jsstring) : option jsstring :=
  match stripPrefix key s with
  | Some r => uptoLast close (takeWhile isDot r)
  | None => None
  end.

(** [frontmatter.match(/key\x22(.+)\x22/)?.[1]] with [.*] for [.+], the
    [\x22] standing for the double quotes of the source. *)
Definition matchQuoted (key : string) (frontmatter : jsstring) : option jsstring :=
  snd <$> search (fieldAt (js key ++ [dquote]) dquote) frontmatter.

(** [frontmatter.match(/issueNumber: (\d+)/)?.[1]] *)
Definition numberAt (s : jsstring) : option jsstring :=
  match stripPrefix (js "issueNumber: ") s with
  | Some r => digitsAt r
  | None => None
  end.

(** The match of [content] against [^---\n], a lazy capture of any
    characters, [\n---\n], and a capture of all that follows: groups 1
    and 2. *)
Definition frontmatterMatch (content : jsstring) : option (jsstring * jsstring) :=
  match stripPrefix (js "---" ++ [nl]) content with
  | Some r => search (stripPrefix ([nl] ++ js "---" ++ [nl])) r
  | None => None
  end.

Module Regenerate.

(** [body.replace(/^# .*\n\n/, '')] *)
Definition stripTitleLine (body : jsstring) : jsstring :=
  match stripPrefix (js "# ") body with
  | Some r =>
      match stripPrefix [nl; nl] (dropWhile isDot r) with
      | Some rest => rest
      | None => body
      end
  | None => body
  end.

(** [/\n---\n\n\*この記事は.*$/] at a position *)
Definition footerAt (s : jsstring) : option unit :=
  match stripPrefix ([nl] ++ js "---" ++ [nl; nl] ++ js "*この記事は") s with
  | Some r => if forallb isDot r then Some tt else None
  | None => None
  end.

(** [s.replace(/\n---\n\n\*この記事は.*$/, '')] *)
Definition stripFooter (s : jsstring) : jsstring :=
  match search footerAt s with
  | Some (pre, _) => pre
  | None => s
  end.

(** [loadArticle] of src/workflows/regenerate-article.ts *)
Definition loadArticle (now : Z) (content : jsstring) : result GeneratedArticle :=
  match frontmatterMatch content with
  | None => Throw (js "Invalid article format")
  | Some (frontmatter, body) =>
      let title := orElse (matchQuoted "title: " frontmatter) [] in
      let summary := orElse (matchQuoted "summary: " frontmatter) [] in
      let issueNumber :=
        parseDigits (orElse (snd <$> search numberAt frontmatter) (js "0")) in
      let tone := orElse (matchQuoted "tone: " frontmatter) (js "casual") in
      let targetAudience := orElse (matchQuoted "targetAudience: " frontmatter) [] in
      let contentBody := stripFooter (stripTitleLine body) in
      Ok {|
        title := title;
        content := trim contentBody;
        summary := summary;
        wordCount := countCharacters contentBody;
        generatedAt := now;
        metadata := {|
          issueNumber := issueNumber;
          tone := tone;
          targetAudience := targetAudience;
          suggestedTags := [] |} |}
  end.

Definition commands : list jsstring :=
  [js "/regenerate"; js "/shorter"; js "/longer"; js "/casual"; js "/formal"; js "/publish"].

Definition parseCommand (body : jsstring) : option jsstring :=
  List.find (fun cmd => includes body cmd) commands.

(** [body.replace(/token/g, '')] for a command token *)
Definition removeAll (token : string) (body : jsstring) : jsstring :=
  replaceAll (fun t => if startsWith t (js token) then Some ([], length (js token)) else None)
    0 body.

(** [/## フィードバック\n([\s\S]*?)(?=\n##|$)/] at a position, capture group
    1: the text up to the next [\n##], or to the end. *)
Definition feedbackAt (s : jsstring) : option jsstring :=
  match stripPrefix (js "## フィードバック" ++ [nl]) s with
  | Some r =>
      match search (stripPrefix ([nl] ++ js "##")) r with
      | Some (group, _) => Some group
      | None => Some r
      end
  | None => None
  end.

Definition extractFeedback (body : jsstring) : jsstring :=
  let feedback :=
    trim (removeAll "/publish" (removeAll "/formal" (removeAll "/casual"
      (removeAll "/longer" (removeAll "/shorter" (removeAll "/regenerate" body)))))) in
  match search feedbackAt feedback with
  | Some (_, group) => trim group
  | None => feedback
  end.

(** [findArticleFiles] on the result of [fs.readdir('articles')], [None]
    when it fails; [path.join] is a parameter. *)
Definition findArticleFiles (pathJoin : jsstring -> jsstring -> jsstring)
    (files : option (list jsstring)) : list jsstring :=
  match files with
  | Some files =>
      map (pathJoin (js "articles"))
        (List.filter (fun f => endsWith f (js ".md")) files)
  | None => []
  end.

(** [newArticle.metadata.issueNumber = originalArticle.metadata.issueNumber]
    in [main], after [regenerateWithFeedback]. *)
Definition carryIssueNumber (originalArticle newArticle : GeneratedArticle)
    : GeneratedArticle :=
  {| title := title newArticle;
     content := content newArticle;
     summary := summary newArticle;
     wordCount := wordCount newArticle;
     generatedAt := generatedAt newArticle;
     metadata := {|
       issueNumber := issueNumber (metadata originalArticle);
       tone := tone (metadata newArticle);
       targetAudience := targetAudience (metadata newArticle);
       suggestedTags := suggestedTags (metadata newArticle) |} |}.

End Regenerate.

Module Publish.

(** [lines[0].replace(/^#\s*/, '')] *)
Definition stripHash (line : jsstring) : jsstring :=
  match line with
  | h :: r => if h =? 0x23 then dropWhile isSpace r else line
  | [] => line
  end.

(** [tagsMatch[1].split(',').map((t) => t.trim().replace(/\x22/g, ''))] *)
Definition parseTags (group : jsstring) : list jsstring :=
  map (fun t => replaceQuotes [] (trim t)) (split 0x2C group).

(** [loadArticle] of src/workflows/publish-to-note.ts *)
Definition loadArticle (now : Z) (content : jsstring) : result GeneratedArticle :=
  match frontmatterMatch content with
  | None =>
      let lines := split nl content in
      let title := stripHash (hd [] lines) in
      Ok {|
        title := title;
        content := content;
        summary := [];
        wordCount := countCharacters content;
        generatedAt := now;
        metadata := {|
          issueNumber := 0;
          tone := js "casual";
          targetAudience := [];
          suggestedTags := [] |} |}
  | Some (frontmatter, body) =>
      let title := orElse (matchQuoted "title: " frontmatter) [] in
      let summary := orElse (matchQuoted "summary: " frontmatter) [] in
      let issueNumber :=
        parseDigits (orElse (snd <$> search numberAt frontmatter) (js "0")) in
      let tone := orElse (matchQuoted "tone: " frontmatter) (js "casual") in
      let targetAudience := orElse (matchQuoted "targetAudience: " frontmatter) [] in
      let tagsMatch := snd <$> search (fieldAt (js "tags: [") 0x5D) frontmatter in
      let suggestedTags :=
        match tagsMatch with
        | Some group => parseTags group
        | None => []
        end in
      let contentBody := trim body in
      Ok {|
        title := title;
        content := contentBody;
        summary := summary;
        wordCount := countCharacters contentBody;
        generatedAt := now;
        metadata := {|
          issueNumber := issueNumber;
          tone := tone;
          targetAudience := targetAudience;
          suggestedTags := suggestedTags |} |}
  end.

(** [findLatestArticle] on the result of [fs.readdir('articles')], [None]
    when it fails; [path.join] is a parameter. *)
Definition findLatestArticle (pathJoin : jsstring -> jsstring -> jsstring)
    (files : option (list jsstring)) : option jsstring :=
  match files with
  | Some files =>
      let mdFiles :=
        rev (sortStrings (List.filter (fun f => endsWith f (js ".md")) files)) in
      match mdFiles with
      | [] => None
      | f :: _ => Some (pathJoin (js "articles") f)
      end
  | None => None
  end.

(** [processArticle] on the text of the article file: the path and the
    text of the export file it writes; [path.join] and [path.basename]
    are parameters. *)
Definition processArticle (pathJoin : jsstring -> jsstring -> jsstring)
    (basename : jsstring -> jsstring) (now : Z) (filepath fileText : jsstring)
    : result (jsstring * jsstring) :=
  article ← loadArticle now fileText;
  let noteContent := formatForNote article in
  let exportFilename := replaceFirst (js ".md") (js "-note.txt") (basename filepath) in
  let exportPath := pathJoin (js "exports") exportFilename in
  mret (exportPath, noteContent).

End Publish.

(** * Specification vocabulary *)

(** [sub] occurs in [s] as a substring. *)
Definition occurs (sub s : jsstring) : Prop := ∃ pre post, s = pre ++ sub ++ post.

(** The invariant of the data model. *)
Definition wordCountInvariant (a : GeneratedArticle) : Prop :=
  wordCount a = countCharacters (content a).

(** The document has the two delimiter lines of a header block: it starts
    with [---] and a line break, and a line [---] closes the block. *)
Definition hasHeaderDelimiters (doc : jsstring) : Prop :=
  ∃ frontmatter body,
    doc = js "---" ++ [nl] ++ frontmatter ++ [nl] ++ js "---" ++ [nl] ++ body.

(** The text before the first line break. *)
Definition firstLine (doc : jsstring) : jsstring :=
  takeWhile (fun c => negb (c =? nl)) doc.

Definition defaultMetadata : ArticleMetadata :=
  {| issueNumber := 0; tone := js "casual"; targetAudience := []; suggestedTags := [] |}.

(** The degraded parse of a document without header delimiters, as a
    property of a loader. *)
Definition degradedParse (load : Z → jsstring → result GeneratedArticle) : Prop :=
  ∀ now doc, ¬ hasHeaderDelimiters doc →
    ∃ a, load now doc = Ok a
      ∧ title a = Publish.stripHash (firstLine doc)
      ∧ content a = doc
      ∧ summary a = []
      ∧ wordCount a = countCharacters doc
      ∧ metadata a = defaultMetadata.

(** The name of the section a heading line opens. *)
Definition headingName (line : jsstring) : option jsstring := trim <$> sectionMatch line.

(** The body has no section called [name]. *)
Definition noSection (body name : jsstring) : Prop :=
  Forall (λ line, headingName line ≠ Some name) (split nl body).

(** [text] is the trimmed text of the section called [name] of the body,
    the last one when several have the name: the lines after its heading,
    up to the next heading or the end of the body. *)
Definition sectionText (body name text : jsstring) : Prop :=
  ∃ pre h cs rest,
    split nl body = pre ++ h :: cs ++ rest
    ∧ headingName h = Some name
    ∧ Forall (λ l, headingName l = None) cs
    ∧ (rest = [] ∨ ∃ h2 r, rest = h2 :: r ∧ is_Some (headingName h2))
    ∧ Forall (λ l, headingName l ≠ Some name) rest
    ∧ text = trim (join [nl] cs).

(** The section is missing or empty. *)
Definition sectionBlank (body name : jsstring) : Prop :=
  noSection body name ∨ sectionText body name [].

(** The issue title with a leading label removed, for the labels the
    specification names: the localized one and [article:]. *)
Definition withoutLabel (title : jsstring) : jsstring :=
  match stripPrefix (js "記事作成:") title with
  | Some r => dropWhile isSpace r
  | None =>
      match stripPrefix (js "article:") title with
      | Some r => dropWhile isSpace r
      | None => title
      end
  end.

(** The theme rule as the specification states it. *)
Definition themeRuleAsStated : Prop :=
  ∀ issue : GitHubIssue,
    let b := orElse (body issue) [] in
    let r := parseIssueToArticleRequest issue in
    (∀ t, sectionText b (js "テーマ") t → theme r = t)
    ∧ (∀ t, noSection b (js "テーマ") → sectionText b (js "theme") t → theme r = t)
    ∧ (noSection b (js "テーマ") → noSection b (js "theme") →
       theme r = withoutLabel (issue_title issue)).

(** [m], followed by [rest], is a match of the URL pattern for the
    character class [cls]: a scheme, then a run of characters of the class
    that is not empty and cannot be extended. *)
Definition urlMatch (cls : N → bool) (m rest : jsstring) : Prop :=
  ∃ scheme run,
    (scheme = js "http://" ∨ scheme = js "https://")
    ∧ m = scheme ++ run
    ∧ run ≠ []
    ∧ Forall (λ c, cls c = true) run
    ∧ match rest with
      | [] => True
      | c :: _ => cls c = false
      end.

(** No match starts at the beginning of [s]. *)
Definition noUrlAt (cls : N → bool) (s : jsstring) : Prop :=
  ∀ m rest, s = m ++ rest → ¬ urlMatch cls m rest.

(** [ms] are the matches of the pattern in [s], from left to right, each
    search starting where the previous match ended. *)
Inductive UrlScan (cls : N → bool) : jsstring → list jsstring → Prop :=
| scan_done s :
    (∀ i, noUrlAt cls (drop i s)) → UrlScan cls s []
| scan_match pre m rest ms :
    (∀ i, (i < length pre)%nat → noUrlAt cls (drop i (pre ++ m ++ rest))) →
    urlMatch cls m rest →
    UrlScan cls rest ms →
    UrlScan cls (pre ++ m ++ rest) (m :: ms).

(** The class of the specification: neither whitespace, nor a bracket, nor
    a parenthesis. *)
Definition statedUrlChar (c : N) : bool :=
  negb (isSpace c || (c =? 0x28) || (c =? 0x29) || (c =? 0x5B) || (c =? 0x5D)
        || (c =? 0x3C) || (c =? 0x3E)).

(** A line that, trimmed, begins with a hash and a space. *)
Definition isTitleLine (l : jsstring) : bool := startsWith (trim l) (js "# ").

(** The first title line of a list of lines, with the lines after it. *)
Fixpoint splitAtTitle (ls : list jsstring) : option (jsstring * list jsstring) :=
  match ls with
  | [] => None
  | l :: rest => if isTitleLine l then Some (l, rest) else splitAtTitle rest
  end.

(** The title/body split in the words of the specification, on the lines
    of a text: the first title line gives the title (the trimmed line
    without the hash and the whitespace after it) and the lines after it
    the body; without such a line the first line gives the title (leading
    hashes and whitespace removed) and the other lines the body. The body
    is joined again and trimmed. *)
Definition titleBodySplit (text : jsstring) : jsstring * jsstring :=
  let ls := split nl text in
  match splitAtTitle ls with
  | Some (l, after) =>
      (dropWhile isSpace (drop 1 (trim l)), trim (join [nl] after))
  | None =>
      (dropWhile isSpace (dropWhile (N.eqb 0x23) (hd [] ls)), trim (join [nl] (tl ls)))
  end.

(** ** The header block of a saved document *)

(** [k] and [y] differ at a position both have. *)
Fixpoint clashb (k y : jsstring) : bool :=
  match k, y with
  | a :: k', b :: y' => if a =? b then clashb k' y' else true
  | _, _ => false
  end.

(** The key [k] starts at no position of the literal [lit], as far as
    [lit] and the literal [next] after it tell. *)
Definition noOccB (k lit next : jsstring) : bool :=
  forallb (λ i, clashb k (drop i lit ++ next)) (seq 0 (length lit)).

(** The character after a field is none of the first [p + 1] characters
    of the key. *)
Definition headFree (k : jsstring) (p : nat) (next : jsstring) : bool :=
  Nat.eqb p 0
  || match next with
     | c0 :: _ => forallb (λ x, negb (x =? c0)) (take (S p) k)
     | [] => false
     end.

(** The key [k] starts at none of the first [n] positions of [x]. *)
Definition quiet (k : jsstring) (n : nat) (x : jsstring) : Prop :=
  ∀ i, (i < n)%nat → ¬ k `prefix_of` drop i x.

(** A matcher that fails wherever the key [k] does not start. *)
Definition keyed {A} (k : jsstring) (m : jsstring → option A) : Prop :=
  ∀ s, ¬ k `prefix_of` s → m s = None.

(** The characters of an ISO timestamp. *)
Definition isoChar (c : N) : bool :=
  isDigit c || (c =? 0x2D) || (c =? 0x2B) || (c =? 0x54) || (c =? 0x3A)
  || (c =? 0x2E) || (c =? 0x5A).

(** What follows the header block in a saved document. *)
Definition savedBody (article : GeneratedArticle) : jsstring :=
  lines [
    js "";
    js "# " ++ title article;
    js "";
    content article;
    js "";
    js "---";
    js "";
    js "*この記事はAIによって生成されました。*";
    js "" ].

(** The text has no line terminator. *)
Definition oneLine (s : jsstring) : bool := forallb isDot s.

Definition hasChar (c : N) (s : jsstring) : bool := existsb (N.eqb c) s.

(** One line, without colon. *)
Definition plainField (s : jsstring) : bool := oneLine s && negb (hasChar 0x3A s).

(** The conditions under which the header block is read back as written:
    the text fields stay on one line, the fields before the last key have
    no colon, the summary has no double quote, the tone is not empty and
    the issue number is an integer a JavaScript number holds exactly. *)
Definition roundTripSafe (A : GeneratedArticle) : bool :=
  plainField (title A)
  && plainField (summary A) && negb (hasChar dquote (summary A))
  && forallb plainField (suggestedTags (metadata A))
  && plainField (tone (metadata A))
  && negb (bool_decide (tone (metadata A) = []))
  && oneLine (targetAudience (metadata A))
  && (issueNumber (metadata A) <? 2 ^ 53).

(** The round trip as the specification states it. *)
Definition roundTripAsStated : Prop :=
  ∀ (A : GeneratedArticle) (now : Z),
    title A ≠ [] → content A ≠ [] →
    ∃ a, Regenerate.loadArticle now (saveArticleAsMarkdown A) = Ok a
      ∧ title a = title A
      ∧ tone (metadata a) = tone (metadata A)
      ∧ targetAudience (metadata a) = targetAudience (metadata A)
      ∧ issueNumber (metadata a) = issueNumber (metadata A)
      ∧ summary a = summary A
      ∧ wordCount a = countCharacters (content a).

(** * Sample data *)

Definition article1 : GeneratedArticle := {|
  title := js "Rust入門";
  content := js "本文 です。" ++ [nl] ++ js "二行目";
  summary := js "要約";
  wordCount := 8;
  generatedAt := 1700000000123;
  metadata := {|
    issueNumber := 42; tone := js "technical"; targetAudience := js "初心者";
    suggestedTags := [js "rust"; js "入門"] |} |}.

(** A service that answers every call with the same text. *)
Definition echoService (text : jsstring) : Service :=
  fun _ _ => Ok [OtherBlock; TextBlock text].

Definition request1 : FeedbackRequest := {|
  feedback := js "もっと短く";
  command := Some (js "/shorter");
  originalArticle := article1 |}.

Definition issue1 : GitHubIssue := {|
  number := 1;
  issue_title := js "記事作成: Rust入門";
  body := Some (lines [
    js "intro"; js "## テーマ"; js "  Rustの所有権 "; js "";
    js "## トーン"; js "技術寄りのbusiness"; js "## 文字数"; js "文字数: 1500文字";
    js "see http://a.com/x and (https://b.com/y)" ]);
  labels := [] |}.

(** An issue without description, titled with the English label. *)
Definition issue2 : GitHubIssue := {|
  number := 2; issue_title := js "article: Rust"; body := None; labels := [] |}.

(** An issue with an empty localized theme section. *)
Definition issue3 : GitHubIssue := {|
  number := 3;
  issue_title := js "記事作成：  型の話";
  body := Some (lines [js "## テーマ"; js ""; js "## theme"; js "types"]);
  labels := [] |}.

(** An article whose summary has two lines. *)
Definition article2 : GeneratedArticle := {|
  title := js "Rust入門";
  content := js "本文";
  summary := js "一行目" ++ [nl] ++ js "二行目";
  wordCount := 2;
  generatedAt := 1700000000123;
  metadata := {|
    issueNumber := 42; tone := js "technical"; targetAudience := js "初心者";
    suggestedTags := [js "rust"] |} |}.

(** * Properties *)

(** ** Strings *)

(** Source literals, evaluated to their code units. *)
Ltac js_lit :=
  repeat match goal with
  | |- context [js ?s] =>
      let v := eval vm_compute in (js s) in change (js s) with v
  | H : context [js ?s] |- _ =>
      let v := eval vm_compute in (js s) in change (js s) with v in H
  end.

Lemma stripPrefix_app (p s : jsstring) : stripPrefix p (p ++ s) = Some s.
Proof.
  induction p as [|a p IH]; simpl; [done|].
  by rewrite N.eqb_refl.
Qed.

Lemma stripPrefix_Some (p s r : jsstring) : stripPrefix p s = Some r ↔ s = p ++ r.
Proof.
  split.
  - revert s. induction p as [|a p IH]; intros s H; simpl in *.
    + congruence.
    + destruct s as [|b s]; [done|].
      destruct (N.eqb_spec a b) as [->|]; [|done].
      f_equal. by apply IH.
  - intros ->. apply stripPrefix_app.
Qed.

Lemma startsWith_prefix (s p : jsstring) : startsWith s p = true ↔ p `prefix_of` s.
Proof.
  unfold startsWith. rewrite bool_decide_eq_true. split.
  - intros [r Hr]. exists r. by apply stripPrefix_Some.
  - intros [r ->]. exists r. apply stripPrefix_app.
Qed.

Lemma includes_occurs (s sub : jsstring) : includes s sub = true ↔ occurs sub s.
Proof.
  induction s as [|c s IH]; simpl.
  - destruct (startsWith [] sub) eqn:E.
    + apply startsWith_prefix in E as [r Hr]. split; [|done].
      intros _. exists [], r. done.
    + split; [done|]. intros (pre & post & H).
      destruct pre; [|done]. simpl in H.
      assert (startsWith [] sub = true); [|congruence].
      apply startsWith_prefix. by exists post.
  - destruct (startsWith (c :: s) sub) eqn:E.
    + apply startsWith_prefix in E as [r Hr]. split; [|done].
      intros _. exists [], r. done.
    + rewrite IH. split.
      * intros (pre & post & ->). by exists (c :: pre), post.
      * intros (pre & post & H). destruct pre as [|x pre].
        -- assert (startsWith (c :: s) sub = true); [|congruence].
           apply startsWith_prefix. exists post. done.
        -- simpl in H. injection H as -> ->. by exists pre, post.
Qed.

Lemma includes_not_occurs (s sub : jsstring) : includes s sub = false ↔ ¬ occurs sub s.
Proof. rewrite <- includes_occurs. by destruct (includes s sub). Qed.

Lemma filter_dropWhile_isSpace (s : jsstring) :
  List.filter (fun c => negb (isSpace c)) (dropWhile isSpace s)
  = List.filter (fun c => negb (isSpace c)) s.
Proof.
  induction s as [|c s IH]; simpl; [done|].
  destruct (isSpace c) eqn:E; simpl; [done|].
  by rewrite E.
Qed.

Lemma filter_rev {A} (f : A → bool) (l : list A) :
  List.filter f (rev l) = rev (List.filter f l).
Proof.
  induction l as [|a l IH]; simpl; [done|].
  rewrite List.filter_app, IH. simpl. destruct (f a); simpl; [done|].
  by rewrite app_nil_r.
Qed.

Lemma countCharacters_trim (s : jsstring) : countCharacters (trim s) = countCharacters s.
Proof.
  unfold countCharacters, trim, trimEnd, trimStart. f_equal.
  rewrite filter_rev, length_rev, filter_dropWhile_isSpace.
  by rewrite filter_rev, length_rev, filter_dropWhile_isSpace.
Qed.

Lemma find_first {A} (f : A → bool) (l : list A) (x : A) :
  List.find f l = Some x ↔
  ∃ before after, l = before ++ x :: after ∧ f x = true
    ∧ Forall (λ y, f y = false) before.
Proof.
  induction l as [|a l IH]; simpl.
  - split; [done|]. intros (before & after & H & _). by destruct before.
  - destruct (f a) eqn:E.
    + split.
      * intros [= ->]. exists [], l. by repeat split.
      * intros (before & after & H & Hx & Hb). destruct before as [|b before].
        -- by injection H as ->.
        -- injection H as -> _. apply Forall_cons in Hb as [Hb _]. congruence.
    + rewrite IH. split.
      * intros (before & after & -> & Hx & Hb).
        exists (a :: before), after. repeat split; [done|]. by constructor.
      * intros (before & after & H & Hx & Hb). destruct before as [|b before].
        -- injection H as -> _. congruence.
        -- injection H as -> ->. apply Forall_cons in Hb as [_ Hb].
           by exists before, after.
Qed.

Lemma find_none_all {A} (f : A → bool) (l : list A) :
  List.find f l = None ↔ Forall (λ y, f y = false) l.
Proof.
  induction l as [|a l IH]; simpl.
  - split; [constructor|done].
  - destruct (f a) eqn:E.
    + split; [done|]. intros H. apply Forall_cons in H as [H _]. congruence.
    + rewrite IH. split; [by constructor|]. intros H. by apply Forall_cons in H as [_ H].
Qed.

(** ** Feedback commands *)

(** C8. [parseCommand] answers with one of the six tokens of [commands],
    the first in the listed order that occurs in the comment body as a
    substring, and with [undefined] exactly when none of them occurs; a
    body with both [/shorter] and [/casual] (and no [/regenerate], which is
    listed before them) resolves to [/shorter]. *)
Theorem parseCommand_first_listed (body : jsstring) :
  Regenerate.commands =
    [js "/regenerate"; js "/shorter"; js "/longer"; js "/casual"; js "/formal"; js "/publish"]
  ∧ (∀ cmd, Regenerate.parseCommand body = Some cmd ↔
       ∃ before after, Regenerate.commands = before ++ cmd :: after
         ∧ occurs cmd body ∧ Forall (λ c, ¬ occurs c body) before)
  ∧ (Regenerate.parseCommand body = None ↔
       Forall (λ c, ¬ occurs c body) Regenerate.commands)
  ∧ (occurs (js "/shorter") body → occurs (js "/casual") body →
     ¬ occurs (js "/regenerate") body →
     Regenerate.parseCommand body = Some (js "/shorter")).
Proof.
  split; [reflexivity|]. split; [|split].
  - intros cmd. unfold Regenerate.parseCommand. rewrite find_first.
    split; intros (before & after & Hc & Ho & Hb); exists before, after;
      (split; [done|]); rewrite includes_occurs in *; (split; [done|]);
      eapply Forall_impl; try exact Hb; intros c; simpl;
      by rewrite includes_not_occurs.
  - unfold Regenerate.parseCommand. rewrite find_none_all.
    split; intros H; eapply Forall_impl; try exact H; intros c; simpl;
      by rewrite includes_not_occurs.
  - intros Hs _ Hr. unfold Regenerate.parseCommand. apply find_first.
    exists [js "/regenerate"], [js "/longer"; js "/casual"; js "/formal"; js "/publish"].
    split; [reflexivity|]. split; [by apply includes_occurs|].
    constructor; [|constructor]. by apply includes_not_occurs.
Qed.

Lemma parseCommand_first_listed_witness :
  Regenerate.parseCommand (js "/casual にして /shorter") = Some (js "/shorter").
Proof.
  destruct (parseCommand_first_listed (js "/casual にして /shorter")) as (_ & _ & _ & H).
  apply H.
  - exists (js "/casual にして "), []. reflexivity.
  - exists [], (js " にして /shorter"). reflexivity.
  - apply includes_not_occurs. reflexivity.
Defined.

(** ** Regeneration *)

Lemma bind_Ok {A B} (r : result A) (k : A → result B) (b : B) :
  r ≫= k = Ok b → ∃ a, r = Ok a ∧ k a = Ok b.
Proof. destruct r as [a|m]; simpl; [|done]. intros H. by exists a. Qed.

(** C10. The article [regenerateWithFeedback] returns has the metadata of
    the original article, field for field, whatever the feedback and the
    command; its title and content are the split of the service's new text,
    its summary the service's summary of the new content, its word count and
    date are computed anew. The assignment of the issue number that follows
    in [main] changes nothing. *)
Theorem regenerate_keeps_metadata (create : Service) (now : Z)
    (request : FeedbackRequest) (a : GeneratedArticle) :
  regenerateWithFeedback create now request = Ok a →
  issueNumber (metadata a) = issueNumber (metadata (originalArticle request))
  ∧ tone (metadata a) = tone (metadata (originalArticle request))
  ∧ targetAudience (metadata a) = targetAudience (metadata (originalArticle request))
  ∧ suggestedTags (metadata a) = suggestedTags (metadata (originalArticle request))
  ∧ (∃ params response text,
       create 0%nat params = Ok response
       ∧ extractTextContent response = Ok text
       ∧ (title a, content a) = parseArticleContent text)
  ∧ generateSummary create 1%nat (content a) = Ok (summary a)
  ∧ wordCount a = countCharacters (content a)
  ∧ generatedAt a = now
  ∧ Regenerate.carryIssueNumber (originalArticle request) a = a.
Proof.
  unfold regenerateWithFeedback. intros H.
  apply bind_Ok in H as (response & Hc & H).
  apply bind_Ok in H as (text & Ht & H).
  destruct (parseArticleContent text) as [t b] eqn:Hp.
  apply bind_Ok in H as (sm & Hs & H).
  injection H as <-. simpl.
  repeat split; try done.
  eexists _, response, text. by rewrite Hp.
Qed.

Lemma regenerate_keeps_metadata_witness :
  ∃ a, regenerateWithFeedback (echoService (js "# 新題" ++ [nl] ++ js "新 本文")) 5 request1 = Ok a
    ∧ metadata a = metadata article1 ∧ title a = js "新題" ∧ wordCount a = 3.
Proof.
  eexists. split; [reflexivity|].
  pose proof (regenerate_keeps_metadata
    (echoService (js "# 新題" ++ [nl] ++ js "新 本文")) 5 request1 _ eq_refl) as H.
  split; [reflexivity|]. split; [reflexivity|]. apply H.
Defined.

(** ** The word count invariant *)

(** C3. Every article a core operation produces (generation, regeneration,
    and both loaders of a persisted document) has a word count equal to the
    number of non-whitespace characters of its content. *)
Theorem wordCount_invariant (create : Service) (now : Z) :
  (∀ request a, generateArticle create now request = Ok a → wordCountInvariant a)
  ∧ (∀ request a, regenerateWithFeedback create now request = Ok a → wordCountInvariant a)
  ∧ (∀ doc a, Regenerate.loadArticle now doc = Ok a → wordCountInvariant a)
  ∧ (∀ doc a, Publish.loadArticle now doc = Ok a → wordCountInvariant a).
Proof.
  unfold wordCountInvariant. repeat split.
  - intros request a H. unfold generateArticle in H.
    apply bind_Ok in H as (response & _ & H).
    apply bind_Ok in H as (text & _ & H).
    destruct (parseArticleContent text) as [t b].
    apply bind_Ok in H as (sm & _ & H).
    apply bind_Ok in H as (tags & _ & H).
    by injection H as <-.
  - intros request a H. unfold regenerateWithFeedback in H.
    apply bind_Ok in H as (response & _ & H).
    apply bind_Ok in H as (text & _ & H).
    destruct (parseArticleContent text) as [t b].
    apply bind_Ok in H as (sm & _ & H).
    by injection H as <-.
  - intros doc a. unfold Regenerate.loadArticle.
    destruct (frontmatterMatch doc) as [[fm b]|]; [|done].
    intros [= <-]. simpl. by rewrite countCharacters_trim.
  - intros doc a. unfold Publish.loadArticle.
    destruct (frontmatterMatch doc) as [[fm b]|]; by intros [= <-].
Qed.

Lemma wordCount_invariant_witness :
  (∃ a, generateArticle (echoService (js "# 題" ++ [nl] ++ js "本 文")) 7
          {| theme := js "題"; req_targetAudience := None; req_tone := None;
             targetLength := None; additionalInstructions := None;
             references := None |} = Ok a ∧ wordCount a = 2)
  ∧ (∃ a, Regenerate.loadArticle 7 (saveArticleAsMarkdown article1) = Ok a
          ∧ wordCountInvariant a)
  ∧ (∃ a, Publish.loadArticle 7 (js "# 題" ++ [nl] ++ js "本 文") = Ok a
          ∧ wordCountInvariant a).
Proof.
  destruct (wordCount_invariant (echoService (js "# 題" ++ [nl] ++ js "本 文")) 7)
    as (Hg & _ & Hr & Hp).
  split; [|split].
  - eexists. split; [reflexivity|]. exact (Hg _ _ eq_refl).
  - eexists. split; [vm_compute; reflexivity|]. apply (Hr (saveArticleAsMarkdown article1)).
    vm_compute. reflexivity.
  - eexists. split; [vm_compute; reflexivity|]. apply (Hp (js "# 題" ++ [nl] ++ js "本 文")).
    vm_compute. reflexivity.
Defined.

(** ** Tone *)

(** C6. The tone of the request is decided by substring containment on the
    text of the tone section ([toneText], the empty text when the section
    is missing): business when it contains one of the business keywords,
    otherwise technical when it contains one of the technical keywords,
    otherwise casual. *)
Theorem tone_by_containment (issue : GitHubIssue) :
  let sections := parseIssueSections (orElse (body issue) []) in
  let toneText := orElse (sections !! js "トーン") (orElse (sections !! js "tone") []) in
  let tone := req_tone (parseIssueToArticleRequest issue) in
  (occurs (js "ビジネス") toneText ∨ occurs (js "business") toneText →
   tone = Some business)
  ∧ (¬ occurs (js "ビジネス") toneText → ¬ occurs (js "business") toneText →
     occurs (js "技術") toneText ∨ occurs (js "technical") toneText →
     tone = Some technical)
  ∧ (¬ occurs (js "ビジネス") toneText → ¬ occurs (js "business") toneText →
     ¬ occurs (js "技術") toneText → ¬ occurs (js "technical") toneText →
     tone = Some casual).
Proof.
  intros sections toneText tone. subst tone. unfold parseIssueToArticleRequest.
  fold sections. fold toneText. simpl.
  split; [|split].
  - intros [H|H]; apply includes_occurs in H; rewrite H; [done|].
    by rewrite orb_true_r.
  - intros H1%includes_not_occurs H2%includes_not_occurs H.
    rewrite H1, H2. simpl.
    destruct H as [H|H]; apply includes_occurs in H; rewrite H; [done|].
    by rewrite orb_true_r.
  - intros H1%includes_not_occurs H2%includes_not_occurs
           H3%includes_not_occurs H4%includes_not_occurs.
    by rewrite H1, H2, H3, H4.
Qed.

Lemma tone_by_containment_witness :
  req_tone (parseIssueToArticleRequest issue1) = Some business.
Proof.
  destruct (tone_by_containment issue1) as (H & _ & _). apply H.
  right. exists (js "技術寄りの"), []. reflexivity.
Defined.

(** ** Regular expression search *)

Lemma search_None {A} (m : jsstring → option A) (s : jsstring) :
  search m s = None ↔ ∀ i, (i ≤ length s)%nat → m (drop i s) = None.
Proof.
  induction s as [|c s IH]; simpl.
  - destruct (m []) eqn:E.
    + split; [done|]. intros H. specialize (H 0%nat (le_n _)). simpl in H. congruence.
    + split; [|done]. intros _ i Hi. by rewrite drop_nil.
  - destruct (m (c :: s)) eqn:E.
    + split; [done|]. intros H. specialize (H 0%nat (Nat.le_0_l _)).
      simpl in H. congruence.
    + destruct (search m s) as [[pre r]|] eqn:Es.
      * split; [done|]. intros H.
        assert (Some (pre, r) = None); [|done].
        apply IH. intros i Hi. apply (H (S i)). lia.
      * split; [|done]. intros _ [|i] Hi; [done|].
        simpl. apply IH; [done|lia].
Qed.

Lemma search_Some {A} (m : jsstring → option A) (s pre : jsstring) (r : A) :
  search m s = Some (pre, r) ↔
  ∃ rest, s = pre ++ rest ∧ m rest = Some r
    ∧ ∀ i, (i < length pre)%nat → m (drop i s) = None.
Proof.
  revert pre r. induction s as [|c s IH]; intros pre r; simpl.
  - destruct (m []) eqn:E.
    + split.
      * intros [= <- <-]. exists []. repeat split; [done|]. simpl. lia.
      * intros (rest & H & Hm & _). symmetry in H.
        apply app_eq_nil in H as [-> ->]. congruence.
    + split; [done|]. intros (rest & H & Hm & _). symmetry in H.
      apply app_eq_nil in H as [-> ->]. congruence.
  - destruct (m (c :: s)) eqn:E.
    + split.
      * intros [= <- <-]. exists (c :: s). repeat split; [done|]. simpl. lia.
      * intros (rest & H & Hm & Hn). destruct pre as [|x pre].
        -- simpl in H. subst rest. congruence.
        -- specialize (Hn 0%nat (Nat.lt_0_succ _)). simpl in Hn. congruence.
    + destruct (search m s) as [[pre' r']|].
      * split.
        -- intros [= <- <-].
           destruct (proj1 (IH pre' r') eq_refl) as (rest & -> & Hm & Hn).
           exists rest. repeat split; [done|].
           intros [|i] Hi; [done|]. simpl in *. apply Hn. lia.
        -- intros (rest & H & Hm & Hn). destruct pre as [|x pre].
           ++ simpl in H. subst rest. congruence.
           ++ injection H as -> ->.
              assert (Some (pre', r') = Some (pre, r)) as [= -> ->]; [|done].
              apply IH. exists rest. repeat split; [done|].
              intros i Hi. apply (Hn (S i)). simpl. lia.
      * split; [done|]. intros (rest & H & Hm & Hn). destruct pre as [|x pre].
        -- simpl in H. subst rest. congruence.
        -- injection H as -> ->.
           assert (@None (jsstring * A) = Some (pre, r)); [|done].
           apply IH. exists rest. repeat split; [done|].
           intros i Hi. apply (Hn (S i)). simpl. lia.
Qed.

Lemma search_is_Some {A} (m : jsstring → option A) (pre rest : jsstring) (r : A) :
  m rest = Some r → is_Some (search m (pre ++ rest)).
Proof.
  intros Hm. destruct (search m (pre ++ rest)) as [x|] eqn:E; [done|].
  rewrite search_None in E. specialize (E (length pre)).
  rewrite drop_app_length in E. rewrite E in Hm; [done|].
  rewrite length_app. lia.
Qed.

(** ** Header delimiters *)

Lemma frontmatterMatch_None (doc : jsstring) :
  frontmatterMatch doc = None ↔ ¬ hasHeaderDelimiters doc.
Proof.
  unfold frontmatterMatch, hasHeaderDelimiters.
  destruct (stripPrefix (js "---" ++ [nl]) doc) as [r|] eqn:E.
  - apply stripPrefix_Some in E as ->. split.
    + intros Hn (fm & b & H). js_lit. simpl in H. injection H as ->.
      rewrite search_None in Hn. specialize (Hn (length fm)).
      rewrite drop_app_length in Hn.
      specialize (Hn ltac:(rewrite length_app; lia)). simpl in Hn. done.
    + intros Hn. destruct (search _ r) as [[fm b]|] eqn:Es; [|done].
      exfalso. apply Hn. apply search_Some in Es as (rest & -> & Hm & _).
      apply stripPrefix_Some in Hm as ->. by exists fm, b.
  - split; [|done]. intros _ (fm & b & ->). js_lit. simpl in E. done.
Qed.

Lemma hd_split_firstLine (doc : jsstring) : hd [] (split nl doc) = firstLine doc.
Proof.
  unfold firstLine. induction doc as [|c s IH]; simpl; [done|].
  destruct (c =? nl); simpl; [done|].
  destruct (split nl s) as [|l ls]; simpl in *; by rewrite <- ?IH.
Qed.

(** C2, as amended. A document without the header delimiters is parsed in
    the degraded way by the loader of the export workflow: the title is the
    first line without a leading hash and the whitespace after it, the
    content is the whole document, the metadata fields take their defaults.
    The loader of the regeneration workflow rejects such a document with
    the error [Invalid article format]. *)
Theorem degraded_parse_on_export_only :
  degradedParse Publish.loadArticle
  ∧ (∀ now doc, ¬ hasHeaderDelimiters doc →
       Regenerate.loadArticle now doc = Throw (js "Invalid article format")).
Proof.
  split.
  - intros now doc H. apply frontmatterMatch_None in H.
    unfold Publish.loadArticle. rewrite H. eexists. split; [done|]. simpl.
    by rewrite hd_split_firstLine.
  - intros now doc H. apply frontmatterMatch_None in H.
    unfold Regenerate.loadArticle. by rewrite H.
Qed.

Lemma no_delimiters_plain : ¬ hasHeaderDelimiters (js "# 題" ++ [nl] ++ js "本 文").
Proof. apply frontmatterMatch_None. reflexivity. Qed.

Lemma degraded_parse_on_export_only_witness :
  (∃ a, Publish.loadArticle 7 (js "# 題" ++ [nl] ++ js "本 文") = Ok a
        ∧ title a = js "題" ∧ metadata a = defaultMetadata)
  ∧ Regenerate.loadArticle 7 (js "# 題" ++ [nl] ++ js "本 文")
    = Throw (js "Invalid article format").
Proof.
  destruct degraded_parse_on_export_only as [Hp Hr]. split.
  - destruct (Hp 7%Z _ no_delimiters_plain) as (a & Ha & Ht & _ & _ & _ & Hm).
    exists a. split; [exact Ha|]. split; [|exact Hm]. rewrite Ht. reflexivity.
  - apply Hr. exact no_delimiters_plain.
Defined.

(** C2, as stated, fails: the loader of the regeneration workflow has no
    degraded parse. *)
Lemma degraded_parse_not_on_regeneration : ¬ degradedParse Regenerate.loadArticle.
Proof.
  intros H. destruct (H 7%Z _ no_delimiters_plain) as (a & Ha & _).
  vm_compute in Ha. discriminate Ha.
Qed.

(** ** Sections of an issue body *)

Lemma setSection_lookup_ne (m : gmap jsstring jsstring) (name text k : jsstring) :
  name ≠ k → setSection m name text !! k = m !! k.
Proof.
  intros H. unfold setSection. case_bool_decide; [done|].
  by rewrite lookup_insert_ne.
Qed.

Lemma setSection_lookup_eq (m : gmap jsstring jsstring) (name text : jsstring) :
  name ≠ js "__proto__" → setSection m name text !! name = Some text.
Proof.
  intros H. unfold setSection. case_bool_decide; [done|].
  by rewrite lookup_insert_eq.
Qed.

Lemma flushSection_lookup_ne (st : SectionState) (k : jsstring) :
  currentSection st ≠ k → flushSection st !! k = sections st !! k.
Proof.
  intros H. unfold flushSection. destruct (currentSection st) as [|c n] eqn:E; [done|].
  by apply setSection_lookup_ne.
Qed.

Lemma flushSection_lookup_eq (st : SectionState) (name : jsstring) :
  currentSection st = name → name ≠ [] → name ≠ js "__proto__" →
  flushSection st !! name = Some (trim (join [nl] (currentContent st))).
Proof.
  intros <- H1 H2. unfold flushSection.
  destruct (currentSection st) as [|c n] eqn:E; [done|].
  by apply setSection_lookup_eq.
Qed.

Lemma sectionStep_heading (st : SectionState) (line name : jsstring) :
  headingName line = Some name →
  sectionStep st line
  = {| sections := flushSection st; currentSection := name; currentContent := [] |}.
Proof.
  unfold headingName, sectionStep. destruct (sectionMatch line) as [g|]; [|done].
  by intros [= <-].
Qed.

Lemma sectionStep_content (st : SectionState) (line : jsstring) :
  headingName line = None → currentSection st ≠ [] →
  sectionStep st line
  = {| sections := sections st; currentSection := currentSection st;
       currentContent := currentContent st ++ [line] |}.
Proof.
  unfold headingName, sectionStep. destruct (sectionMatch line) as [g|]; [done|].
  intros _ H. by destruct (currentSection st).
Qed.

(** Lines that open no section called [name] leave its entry alone. *)
Lemma run_other_sections (name : jsstring) (ls : list jsstring) (st : SectionState) :
  Forall (λ l, headingName l ≠ Some name) ls →
  currentSection st ≠ name →
  flushSection (fold_left sectionStep ls st) !! name = sections st !! name.
Proof.
  revert st. induction ls as [|l ls IH]; intros st Hls Hc; simpl.
  - by apply flushSection_lookup_ne.
  - apply Forall_cons in Hls as [Hl Hls].
    rewrite IH; [|done|].
    + unfold sectionStep, headingName in *.
      destruct (sectionMatch l) as [g|]; simpl.
      * by apply flushSection_lookup_ne.
      * by destruct (currentSection st).
    + unfold sectionStep, headingName in *.
      destruct (sectionMatch l) as [g|]; simpl in *.
      * congruence.
      * destruct (currentSection st) eqn:E; simpl; congruence.
Qed.

(** The lines of a section are collected up to the next heading. *)
Lemma run_content (cs : list jsstring) (st : SectionState) :
  Forall (λ l, headingName l = None) cs →
  currentSection st ≠ [] →
  fold_left sectionStep cs st
  = {| sections := sections st; currentSection := currentSection st;
       currentContent := currentContent st ++ cs |}.
Proof.
  revert st. induction cs as [|l cs IH]; intros st Hcs Hc; simpl.
  - rewrite app_nil_r. by destruct st.
  - apply Forall_cons in Hcs as [Hl Hcs].
    rewrite sectionStep_content by done.
    rewrite IH by done. simpl. by rewrite <- app_assoc.
Qed.

Lemma parseIssueSections_absent (body name : jsstring) :
  name ≠ [] → noSection body name → parseIssueSections body !! name = None.
Proof.
  intros Hn H. unfold parseIssueSections.
  rewrite run_other_sections; [done|done|]. simpl. congruence.
Qed.

Lemma parseIssueSections_present (body name text : jsstring) :
  name ≠ [] → name ≠ js "__proto__" → sectionText body name text →
  parseIssueSections body !! name = Some text.
Proof.
  intros Hn Hp (pre & h & cs & rest & Hs & Hh & Hcs & Hrest & Hno & ->).
  unfold parseIssueSections. rewrite Hs.
  rewrite fold_left_app. simpl.
  rewrite (sectionStep_heading _ _ _ Hh).
  rewrite fold_left_app.
  rewrite (run_content cs); [|done|by simpl]. simpl.
  destruct Hrest as [->|(h2 & r & -> & [n2 Hh2])]; simpl.
  - by apply flushSection_lookup_eq.
  - apply Forall_cons in Hno as [Hne Hno].
    rewrite (sectionStep_heading _ _ _ Hh2).
    rewrite run_other_sections; [|done|simpl; congruence].
    simpl. by apply flushSection_lookup_eq.
Qed.

Lemma orElse_blank (body name d : jsstring) :
  name ≠ [] → name ≠ js "__proto__" → sectionBlank body name →
  orElse (parseIssueSections body !! name) d = d.
Proof.
  intros Hn Hp [H|H].
  - by rewrite parseIssueSections_absent.
  - by rewrite (parseIssueSections_present _ _ [] Hn Hp H).
Qed.

Lemma orElse_present (body name text d : jsstring) :
  name ≠ [] → name ≠ js "__proto__" → sectionText body name text → text ≠ [] →
  orElse (parseIssueSections body !! name) d = text.
Proof.
  intros Hn Hp H Ht. rewrite (parseIssueSections_present _ _ _ Hn Hp H).
  by destruct text.
Qed.

(** Goals [name ≠ other] on two source literals. *)
Ltac js_ne := js_lit; discriminate.

Lemma theme_blank (issue : GitHubIssue) :
  sectionBlank (orElse (body issue) []) (js "テーマ") →
  sectionBlank (orElse (body issue) []) (js "theme") →
  theme (parseIssueToArticleRequest issue) = stripTitlePrefix (issue_title issue).
Proof.
  intros H1 H2. unfold parseIssueToArticleRequest. cbn [theme].
  rewrite orElse_blank; [|js_ne|js_ne|done].
  rewrite orElse_blank; [done|js_ne|js_ne|done].
Qed.

(** ** Theme *)


Lemma issue3_sections :
  sectionBlank (orElse (body issue3) []) (js "テーマ")
  ∧ sectionText (orElse (body issue3) []) (js "theme") (js "types").
Proof.
  split.
  - right. exists [], (js "## テーマ"), [[]], [js "## theme"; js "types"].
    split; [reflexivity|]. split; [reflexivity|].
    split; [by repeat constructor|].
    split; [right; eexists _, _; split; [reflexivity|]; by eexists|].
    split; [|reflexivity].
    repeat constructor; vm_compute; discriminate.
  - exists [js "## テーマ"; []], (js "## theme"), [js "types"], [].
    split; [reflexivity|]. split; [reflexivity|].
    split; [by repeat constructor|]. split; [by left|]. split; [constructor|reflexivity].
Qed.



(** ** Reference links *)

Lemma takeWhile_dropWhile (p : N → bool) (s : jsstring) :
  takeWhile p s ++ dropWhile p s = s.
Proof.
  induction s as [|c s IH]; simpl; [done|].
  destruct (p c); simpl; [by rewrite IH|done].
Qed.

Lemma takeWhile_Forall (p : N → bool) (s : jsstring) :
  Forall (λ c, p c = true) (takeWhile p s).
Proof.
  induction s as [|c s IH]; simpl; [constructor|].
  destruct (p c) eqn:E; by constructor.
Qed.

Lemma dropWhile_head (p : N → bool) (s : jsstring) :
  match dropWhile p s with
  | [] => True
  | c :: _ => p c = false
  end.
Proof.
  induction s as [|c s IH]; simpl; [done|].
  destruct (p c) eqn:E; [done|]. exact E.
Qed.

Lemma takeWhile_app (p : N → bool) (run rest : jsstring) :
  Forall (λ c, p c = true) run →
  match rest with
  | [] => True
  | c :: _ => p c = false
  end →
  takeWhile p (run ++ rest) = run.
Proof.
  intros Hrun Hrest. induction Hrun as [|c run Hc _ IH]; simpl.
  - destruct rest as [|c r]; simpl; [done|]. by rewrite Hrest.
  - by rewrite Hc, IH.
Qed.

Lemma dropWhile_app (p : N → bool) (run rest : jsstring) :
  Forall (λ c, p c = true) run →
  match rest with
  | [] => True
  | c :: _ => p c = false
  end →
  dropWhile p (run ++ rest) = rest.
Proof.
  intros Hrun Hrest. induction Hrun as [|c run Hc _ IH]; simpl.
  - destruct rest as [|c r]; simpl; [done|]. by rewrite Hrest.
  - by rewrite Hc, IH.
Qed.

Lemma urlRest_Some (scheme r m : jsstring) :
  urlRest scheme r = Some m →
  ∃ run rest, r = js "://" ++ run ++ rest ∧ m = scheme ++ js "://" ++ run
    ∧ run ≠ [] ∧ Forall (λ c, isUrlChar c = true) run
    ∧ match rest with
      | [] => True
      | c :: _ => isUrlChar c = false
      end.
Proof.
  unfold urlRest. destruct (stripPrefix (js "://") r) as [t|] eqn:E; [|done].
  apply stripPrefix_Some in E as ->.
  destruct (takeWhile isUrlChar t) as [|c run] eqn:Et; [done|].
  intros [= <-]. exists (c :: run), (dropWhile isUrlChar t).
  rewrite <- Et. rewrite takeWhile_dropWhile. repeat split.
  - rewrite Et. done.
  - apply takeWhile_Forall.
  - apply dropWhile_head.
Qed.

Lemma urlRest_run (scheme run rest : jsstring) :
  run ≠ [] → Forall (λ c, isUrlChar c = true) run →
  match rest with
  | [] => True
  | c :: _ => isUrlChar c = false
  end →
  urlRest scheme (js "://" ++ run ++ rest) = Some (scheme ++ js "://" ++ run).
Proof.
  intros Hne Hrun Hrest. unfold urlRest.
  rewrite stripPrefix_app, takeWhile_app by done.
  by destruct run.
Qed.

Lemma urlAt_spec (s m : jsstring) :
  urlAt s = Some m ↔ ∃ rest, s = m ++ rest ∧ urlMatch isUrlChar m rest.
Proof.
  split.
  - unfold urlAt. destruct (stripPrefix (js "http") s) as [r|] eqn:E; [|done].
    apply stripPrefix_Some in E as ->.
    destruct (stripPrefix (js "s") r) as [r'|] eqn:Es.
    + apply stripPrefix_Some in Es as ->.
      destruct (urlRest (js "https") r') as [m'|] eqn:Er.
      * intros [= <-]. apply urlRest_Some in Er as (run & rest & -> & -> & H).
        exists rest. split; [by js_lit|].
        exists (js "https://"), run. split; [by right|]. split; [by js_lit|done].
      * intros H. apply urlRest_Some in H as (run & rest & H & _).
        js_lit. discriminate H.
    + destruct (urlRest (js "http") r) as [m'|] eqn:Er; [|done].
      intros [= <-]. apply urlRest_Some in Er as (run & rest & -> & -> & H).
      exists rest. split; [by js_lit|].
      exists (js "http://"), run. split; [by left|]. split; [by js_lit|done].
  - intros (rest & -> & scheme & run & Hs & -> & Hne & Hrun & Hrest).
    unfold urlAt. destruct Hs as [-> | ->].
    + change (js "http://") with (js "http" ++ js "://").
      rewrite <- !app_assoc, stripPrefix_app.
      replace (stripPrefix (js "s") (js "://" ++ run ++ rest)) with (@None jsstring)
        by (js_lit; reflexivity).
      by apply urlRest_run.
    + change (js "https://") with (js "http" ++ js "s" ++ js "://").
      rewrite <- !app_assoc, !stripPrefix_app.
      by rewrite urlRest_run.
Qed.

Lemma urlAt_None (s : jsstring) : urlAt s = None ↔ noUrlAt isUrlChar s.
Proof.
  split.
  - intros H m rest -> Hm.
    assert (urlAt (m ++ rest) = Some m); [|congruence].
    apply urlAt_spec. by exists rest.
  - intros H. destruct (urlAt s) as [m|] eqn:E; [|done].
    apply urlAt_spec in E as (rest & -> & Hm). by destruct (H m rest).
Qed.

Lemma matchAll_skip (k : nat) (s : jsstring) : matchAll k s = matchAll 0 (drop k s).
Proof.
  revert k. induction s as [|c s IH]; intros [|k]; simpl; done.
Qed.

Lemma matchAll_pass (pre t : jsstring) :
  (∀ i, (i < length pre)%nat → urlAt (drop i (pre ++ t)) = None) →
  matchAll 0 (pre ++ t) = matchAll 0 t.
Proof.
  induction pre as [|c pre IH]; intros H; simpl; [done|].
  pose proof (H 0%nat (Nat.lt_0_succ _)) as H0. simpl in H0. rewrite H0.
  apply IH. intros i Hi. apply (H (S i)). simpl. lia.
Qed.

Lemma matchAll_hit (m rest : jsstring) :
  urlAt (m ++ rest) = Some m → m ≠ [] →
  matchAll 0 (m ++ rest) = m :: matchAll 0 rest.
Proof.
  intros H Hne. destruct m as [|c m]; [done|]. simpl in *. rewrite H.
  f_equal. rewrite matchAll_skip. simpl. rewrite Nat.sub_0_r.
  by rewrite drop_app_length.
Qed.

Lemma matchAll_scan (n : nat) (s : jsstring) :
  (length s ≤ n)%nat → UrlScan isUrlChar s (matchAll 0 s).
Proof.
  revert s. induction n as [|n IH]; intros s Hn.
  - destruct s; [|simpl in Hn; lia]. simpl. apply scan_done.
    intros i. rewrite drop_nil. by apply urlAt_None.
  - destruct (search urlAt s) as [[pre m]|] eqn:E.
    + apply search_Some in E as (rest0 & -> & Hm & Hpre).
      pose proof Hm as Hm'. apply urlAt_spec in Hm' as (rest & -> & Hu).
      assert (m ≠ []) as Hne.
      { destruct Hu as (scheme & run & [-> | ->] & -> & _); js_lit; done. }
      rewrite matchAll_pass by done. rewrite matchAll_hit by done.
      apply scan_match; [|done|].
      * intros i Hi. apply urlAt_None. by apply Hpre.
      * apply IH. rewrite !length_app in Hn. destruct m; [done|]. simpl in Hn. lia.
    + rewrite search_None in E.
      assert (∀ i, urlAt (drop i s) = None) as Hall.
      { intros i. destruct (decide (i ≤ length s)%nat) as [Hi|Hi]; [by apply E|].
        rewrite drop_ge by lia. reflexivity. }
      replace (matchAll 0 s) with (@nil jsstring).
      * apply scan_done. intros i. by apply urlAt_None.
      * symmetry. rewrite <- (app_nil_r s). rewrite matchAll_pass; [done|].
        intros i _. rewrite app_nil_r. apply Hall.
Qed.

(** C7, as amended. [extractReferences] scans the whole body for
    [http://] or [https://] followed by a non-empty run, as long as
    possible, of characters other than whitespace and the three closing
    characters of the pattern (right parenthesis, greater-than sign, right
    square bracket); the matches come in their order of appearance, each
    search starting where the previous match ended, duplicates included.
    Opening parentheses and brackets belong to a match. *)
Theorem references_in_order (body : jsstring) :
  UrlScan isUrlChar body (extractReferences body)
  ∧ (∀ c, isUrlChar c = true ↔ isSpace c = false ∧ c ≠ 0x29 ∧ c ≠ 0x3E ∧ c ≠ 0x5D)
  ∧ extractReferences (js "see http://a.com/x and (https://b.com/y)")
    = [js "http://a.com/x"; js "https://b.com/y"]
  ∧ extractReferences (js "http://a.com/x http://a.com/x")
    = [js "http://a.com/x"; js "http://a.com/x"].
Proof.
  split; [|split; [|split]].
  - apply (matchAll_scan (length body)). done.
  - intros c. unfold isUrlChar. rewrite negb_true_iff, !orb_false_iff, !N.eqb_neq.
    tauto.
  - reflexivity.
  - reflexivity.
Qed.

(** C7, as stated, fails: an opening parenthesis does not end a match. *)
Lemma references_keep_opening_parenthesis :
  ¬ UrlScan statedUrlChar (js "http://a.com/(x)")
      (extractReferences (js "http://a.com/(x)")).
Proof.
  intros H.
  assert (extractReferences (js "http://a.com/(x)") = [js "http://a.com/(x"]) as E
    by reflexivity.
  rewrite E in H. clear E.
  inversion H as [|pre m rest ms Hpre Hm Hsc Heq1 Heq2]. subst.
  destruct Hm as (scheme & run & Hsch & Heq & _ & Hrun & _).
  destruct Hsch as [-> | ->]; js_lit; simpl in Heq.
  - injection Heq as <-.
    rewrite !Forall_cons in Hrun. destruct Hrun as (_&_&_&_&_&_&H6&_).
    discriminate H6.
  - discriminate Heq.
Qed.

Lemma no_scheme_no_url (b : jsstring) :
  ¬ occurs (js "http://") b → ¬ occurs (js "https://") b →
  extractReferences b = [].
Proof.
  intros H1 H2. unfold extractReferences.
  rewrite <- (app_nil_r b). rewrite matchAll_pass; [done|].
  intros i _. rewrite app_nil_r.
  destruct (urlAt (drop i b)) as [m|] eqn:E; [|done].
  apply urlAt_spec in E as (rest & E & scheme & run & Hs & -> & _).
  assert (occurs scheme b) as Ho.
  { exists (take i b), (run ++ rest). rewrite <- (take_drop i b) at 1.
    rewrite E. by rewrite <- app_assoc. }
  by destruct Hs as [-> | ->].
Qed.

Lemma noSection_empty (name : jsstring) : noSection [] name.
Proof. repeat constructor. vm_compute. discriminate. Qed.

(** ** The request extractor *)

(** C9. [parseIssueToArticleRequest] is total, a function of the issue
    that sets every field of the request; a field whose sections are
    missing from the body takes its default (tone casual, target length
    2000, empty audience and instructions), a body without URL scheme gives
    no reference, and an issue with a null or empty body gives the request
    made of the defaults and of the title. *)
Theorem extractor_defaults (issue : GitHubIssue) :
  let b := orElse (body issue) [] in
  let r := parseIssueToArticleRequest issue in
  (is_Some (req_targetAudience r) ∧ is_Some (req_tone r) ∧ is_Some (targetLength r)
   ∧ is_Some (additionalInstructions r) ∧ is_Some (references r))
  ∧ (noSection b (js "トーン") → noSection b (js "tone") → req_tone r = Some casual)
  ∧ (noSection b (js "文字数") → noSection b (js "length") →
     targetLength r = Some 2000)
  ∧ (noSection b (js "ターゲット読者") → noSection b (js "target") →
     req_targetAudience r = Some [])
  ∧ (noSection b (js "追加指示") → noSection b (js "参考にしてほしいこと") →
     additionalInstructions r = Some [])
  ∧ (¬ occurs (js "http://") b → ¬ occurs (js "https://") b →
     references r = Some [])
  ∧ (body issue = None ∨ body issue = Some [] →
     r = {| theme := stripTitlePrefix (issue_title issue);
            req_targetAudience := Some [];
            req_tone := Some casual;
            targetLength := Some 2000;
            additionalInstructions := Some [];
            references := Some [] |}).
Proof.
  intros b r.
  assert (∀ n1 n2 d, n1 ≠ [] → n1 ≠ js "__proto__" → n2 ≠ [] → n2 ≠ js "__proto__" →
    noSection b n1 → noSection b n2 →
    orElse (parseIssueSections b !! n1) (orElse (parseIssueSections b !! n2) d) = d)
    as Hdef.
  { intros n1 n2 d ?? ?? H1 H2.
    rewrite orElse_blank; [|done|done|by left].
    rewrite orElse_blank; [done|done|done|by left]. }
  assert (noSection b (js "トーン") → noSection b (js "tone") → req_tone r = Some casual)
    as Htone.
  { intros H1 H2. subst r. unfold parseIssueToArticleRequest. fold b. cbv zeta.
    cbn [req_tone]. rewrite (Hdef (js "トーン") (js "tone") []); [reflexivity|js_ne|js_ne|js_ne|js_ne|done|done]. }
  assert (noSection b (js "文字数") → noSection b (js "length") →
          targetLength r = Some 2000) as Hlen.
  { intros H1 H2. subst r. unfold parseIssueToArticleRequest. fold b. cbv zeta.
    cbn [targetLength]. rewrite (Hdef (js "文字数") (js "length") []); [reflexivity|js_ne|js_ne|js_ne|js_ne|done|done]. }
  assert (noSection b (js "ターゲット読者") → noSection b (js "target") →
          req_targetAudience r = Some []) as Haud.
  { intros H1 H2. subst r. unfold parseIssueToArticleRequest. fold b. cbv zeta.
    cbn [req_targetAudience].
    rewrite (Hdef (js "ターゲット読者") (js "target") []); [reflexivity|js_ne|js_ne|js_ne|js_ne|done|done]. }
  assert (noSection b (js "追加指示") → noSection b (js "参考にしてほしいこと") →
          additionalInstructions r = Some []) as Hadd.
  { intros H1 H2. subst r. unfold parseIssueToArticleRequest. fold b. cbv zeta.
    cbn [additionalInstructions].
    rewrite (Hdef (js "追加指示") (js "参考にしてほしいこと") []); [reflexivity|js_ne|js_ne|js_ne|js_ne|done|done]. }
  assert (¬ occurs (js "http://") b → ¬ occurs (js "https://") b →
          references r = Some []) as Href.
  { intros H1 H2. subst r. unfold parseIssueToArticleRequest. fold b. cbv zeta.
    cbn [references]. by rewrite no_scheme_no_url. }
  split; [by repeat split|]. repeat (split; [done|]).
  intros Hb.
  assert (b = []) as Hnil by (subst b; by destruct Hb as [-> | ->]).
  assert (theme r = stripTitlePrefix (issue_title issue)) as Hth.
  { apply theme_blank; fold b; rewrite Hnil; left; apply noSection_empty. }
  rewrite Hnil in *.
  specialize (Htone (noSection_empty _) (noSection_empty _)).
  specialize (Hlen (noSection_empty _) (noSection_empty _)).
  specialize (Haud (noSection_empty _) (noSection_empty _)).
  specialize (Hadd (noSection_empty _) (noSection_empty _)).
  assert (references r = Some []) as Hr.
  { apply Href; apply includes_not_occurs; reflexivity. }
  destruct r. simpl in *. congruence.
Qed.

Lemma extractor_defaults_witness :
  parseIssueToArticleRequest issue2 =
  {| theme := js "article: Rust"; req_targetAudience := Some [];
     req_tone := Some casual; targetLength := Some 2000;
     additionalInstructions := Some []; references := Some [] |}.
Proof.
  destruct (extractor_defaults issue2) as (_ & _ & _ & _ & _ & _ & H).
  apply H. by left.
Defined.

(** ** Title and body *)

Lemma dropWhile_nil_Forall (p : N → bool) (s : jsstring) :
  dropWhile p s = [] → Forall (λ c, p c = true) s.
Proof.
  induction s as [|c s IH]; simpl; [constructor|].
  destruct (p c) eqn:E; [|done]. intros H. constructor; auto.
Qed.

(** A trimmed text does not end with whitespace. *)
Lemma trimEnd_last (x y : jsstring) (c : N) :
  trimEnd x = y ++ [c] → isSpace c = false.
Proof.
  unfold trimEnd. intros H. apply (f_equal (@rev N)) in H.
  rewrite rev_involutive, rev_app_distr in H. simpl in H.
  pose proof (dropWhile_head isSpace (rev x)) as Hh. by rewrite H in Hh.
Qed.

Lemma dropWhile_snoc (p : N → bool) (l : jsstring) (c : N) :
  p c = false → dropWhile p (l ++ [c]) = dropWhile p l ++ [c].
Proof.
  intros Hc. induction l as [|a l IH]; simpl; [by rewrite Hc|].
  by destruct (p a).
Qed.

Lemma trimEnd_cons (c : N) (d : jsstring) :
  isSpace c = false → trimEnd (c :: d) = c :: trimEnd d.
Proof.
  intros Hc. unfold trimEnd. simpl.
  rewrite dropWhile_snoc by done. by rewrite rev_app_distr.
Qed.

(** A trimmed text does not start with whitespace. *)
Lemma trim_head (x : jsstring) :
  match trim x with
  | [] => True
  | c :: _ => isSpace c = false
  end.
Proof.
  unfold trim, trimStart.
  pose proof (dropWhile_head isSpace x) as Hh.
  destruct (dropWhile isSpace x) as [|c d]; [done|].
  by rewrite trimEnd_cons.
Qed.

Lemma hd_split (sep : N) (s : jsstring) :
  hd [] (split sep s) = takeWhile (λ c, negb (c =? sep)) s.
Proof.
  induction s as [|c s IH]; simpl; [done|].
  destruct (c =? sep); simpl; [done|].
  destruct (split sep s) as [|l ls]; simpl in *; by rewrite <- ?IH.
Qed.

Lemma split_nonempty (sep : N) (s : jsstring) : split sep s ≠ [].
Proof.
  destruct s as [|c s]; simpl; [done|].
  destruct (c =? sep); [done|]. by destruct (split sep s).
Qed.

(** The title of a title line is not empty. *)
Lemma stripHashSpaces_title (l : jsstring) :
  isTitleLine l = true →
  stripHashSpaces (trim l) = dropWhile isSpace (drop 1 (trim l))
  ∧ stripHashSpaces (trim l) ≠ [].
Proof.
  unfold isTitleLine. intros H. apply startsWith_prefix in H as [r Hr].
  revert Hr. js_lit. simpl. intros Hr. rewrite Hr. simpl. split; [done|].
  intros Hd. apply dropWhile_nil_Forall in Hd.
  unfold trim in Hr.
  destruct (rev r) as [|z r'] eqn:Er.
  - apply (f_equal (@rev N)) in Er. rewrite rev_involutive in Er. subst r.
    by apply (trimEnd_last _ [35] 32) in Hr.
  - apply (f_equal (@rev N)) in Er. rewrite rev_involutive in Er. simpl in Er.
    subst r. apply (trimEnd_last _ (35 :: 32 :: rev r') z) in Hr.
    apply Forall_app in Hd as [_ Hd]. apply Forall_cons in Hd as [Hd _]. congruence.
Qed.

Lemma titleLoop_found (ls : list jsstring) (i : nat) (l : jsstring) (after : list jsstring) :
  splitAtTitle ls = Some (l, after) →
  ∃ k, titleLoop ls i = (stripHashSpaces (trim l), (i + S k)%nat)
       ∧ drop (S k) ls = after.
Proof.
  revert i. induction ls as [|x ls IH]; intros i; simpl; [done|].
  fold (isTitleLine x). destruct (isTitleLine x).
  - intros [= -> ->]. exists 0%nat. split; [|done]. f_equal. lia.
  - intros H. destruct (IH (S i) H) as (k & Hk & Hd).
    exists (S k). split; [|done]. rewrite Hk. f_equal. lia.
Qed.

Lemma titleLoop_missing (ls : list jsstring) (i : nat) :
  splitAtTitle ls = None → titleLoop ls i = ([], 0%nat).
Proof.
  revert i. induction ls as [|x ls IH]; intros i; simpl; [done|].
  fold (isTitleLine x). destruct (isTitleLine x); [done|]. apply IH.
Qed.

Lemma stripHashes_spec (l : jsstring) :
  match l with
  | [] => True
  | c :: _ => isSpace c = false
  end →
  stripHashes l = dropWhile isSpace (dropWhile (N.eqb 0x23) l).
Proof.
  destruct l as [|c r]; [done|]. intros Hc. unfold stripHashes. cbn [dropWhile].
  rewrite (N.eqb_sym 35 c). destruct (c =? 35); [done|].
  cbn [dropWhile]. by rewrite Hc.
Qed.

(** C4, as amended. The splitter works on the lines of the input text
    trimmed of its surrounding whitespace: the first of these lines that,
    trimmed, begins with a hash and a space gives the title (without the
    hash and the whitespace after it) and the lines after it, joined again
    and trimmed, the body; without such a line the first line gives the
    title (leading hashes and whitespace removed) and the other lines the
    body. The empty text gives an empty title and an empty body. *)
Theorem parseArticleContent_split (text : jsstring) :
  parseArticleContent text = titleBodySplit (trim text)
  ∧ parseArticleContent (js "# Hello" ++ [nl; nl] ++ js "World") = (js "Hello", js "World")
  ∧ parseArticleContent (js "No heading" ++ [nl] ++ js "more text")
    = (js "No heading", js "more text")
  ∧ parseArticleContent [] = ([], []).
Proof.
  split; [|by repeat split].
  unfold parseArticleContent, titleBodySplit.
  destruct (splitAtTitle (split nl (trim text))) as [[l after]|] eqn:E.
  - destruct (titleLoop_found _ 0%nat _ _ E) as (k & -> & Hd).
    assert (isTitleLine l = true) as Hl.
    { clear Hd. induction (split nl (trim text)) as [|x ls IH]; simpl in E; [done|].
      destruct (isTitleLine x) eqn:Ex; [by injection E as -> _|by apply IH]. }
    destruct (stripHashSpaces_title l Hl) as [Heq Hne].
    destruct (stripHashSpaces (trim l)) as [|c t] eqn:Et; [done|].
    simpl. by rewrite <- Heq, Hd.
  - rewrite (titleLoop_missing _ _ E).
    pose proof (split_nonempty nl (trim text)) as Hne.
    pose proof (hd_split nl (trim text)) as Hhd.
    destruct (split nl (trim text)) as [|l0 ls]; [done|]. cbn [hd tl] in *.
    f_equal. apply stripHashes_spec. subst l0.
    pose proof (trim_head text) as Hh.
    destruct (trim text) as [|c t]; [done|]. cbn [takeWhile].
    by destruct (negb (c =? nl)).
Qed.

(** C4, as stated, fails: the lines are those of the trimmed text, so a
    text without heading that starts with a blank line takes its title
    from the first line that is not blank. *)
Lemma parseArticleContent_trims_first :
  parseArticleContent ([nl] ++ js "foo" ++ [nl] ++ js "bar")
  ≠ titleBodySplit ([nl] ++ js "foo" ++ [nl] ++ js "bar").
Proof. vm_compute. discriminate. Qed.

(** ** The round trip of the header block *)

(** The loader finds a field by its key; the proofs below pass over the
    saved header block chunk by chunk, a chunk being a literal of the
    template or a field of the article, and show that the key starts in
    none of the chunks before its own line. *)
Lemma clashb_not_prefix (k y rest : jsstring) :
  clashb k y = true → ¬ k `prefix_of` (y ++ rest).
Proof.
  revert y. induction k as [|a k IH]; intros y; simpl; [done|].
  destruct y as [|b y]; [done|].
  destruct (N.eqb_spec a b) as [->|Hne].
  - intros H [t Ht]. simpl in Ht. injection Ht as Ht.
    apply (IH y H). by exists t.
  - intros _ [t Ht]. simpl in Ht. by injection Ht.
Qed.

(** A literal chunk, with the literal after it as lookahead. *)
Lemma quiet_lit_next (k lit next b : jsstring) :
  noOccB k lit next = true → quiet k (length lit) (lit ++ next ++ b).
Proof.
  unfold noOccB. rewrite forallb_forall. intros H i Hi.
  rewrite drop_app_le by lia. rewrite app_assoc.
  apply clashb_not_prefix. apply H. apply in_seq. lia.
Qed.

Lemma quiet_lit (k lit b : jsstring) :
  noOccB k lit [] = true → quiet k (length lit) (lit ++ b).
Proof. apply (quiet_lit_next k lit [] b). Qed.

(** A field chunk: the key has a character [c] at position [p] that the
    field does not contain, and the key cannot start in the field and reach
    over its end. *)
Lemma quiet_field (k : jsstring) (p : nat) (c : N) (f next b : jsstring) :
  k !! p = Some c → c ∉ f → headFree k p next = true →
  quiet k (length f) (f ++ next ++ b).
Proof.
  intros Hk Hc Hh i Hi [t Ht].
  rewrite drop_app_le in Ht by lia.
  assert ((drop i f ++ next ++ b) !! p = Some c) as Hp.
  { rewrite Ht. rewrite lookup_app_l; [done|]. by apply lookup_lt_Some in Hk. }
  destruct (decide (p < length (drop i f))%nat) as [Hlt|Hge].
  - rewrite lookup_app_l in Hp by done. rewrite lookup_drop in Hp.
    apply Hc. by eapply list_elem_of_lookup_2.
  - unfold headFree in Hh. apply orb_true_iff in Hh as [Hh|Hh].
    + apply Nat.eqb_eq in Hh. subst p. rewrite length_drop in Hge. lia.
    + destruct next as [|c0 next]; [done|].
      rewrite forallb_forall in Hh.
      assert ((drop i f ++ (c0 :: next) ++ b) !! length (drop i f) = Some c0) as H0.
      { rewrite lookup_app_r by lia. by rewrite Nat.sub_diag. }
      rewrite Ht in H0. rewrite lookup_app_l in H0.
      2:{ apply lookup_lt_Some in Hk. lia. }
      assert (In c0 (take (S p) k)) as Hin.
      { apply list_elem_of_In. apply list_elem_of_lookup. exists (length (drop i f)).
        rewrite lookup_take_lt by lia. done. }
      specialize (Hh _ Hin). by rewrite N.eqb_refl in Hh.
Qed.

Lemma quiet_app (k a b : jsstring) (n : nat) :
  quiet k (length a) (a ++ b) → quiet k n b → quiet k (length a + n) (a ++ b).
Proof.
  intros Ha Hb i Hi. destruct (decide (i < length a)%nat) as [Hlt|Hge].
  - by apply Ha.
  - rewrite drop_app_ge by lia. apply Hb. lia.
Qed.

(** The search passes over a chunk in which the key does not start. *)
Lemma search_step {A} (k : jsstring) (m : jsstring → option A)
    (a b p : jsstring) (r : A) :
  keyed k m → quiet k (length a) (a ++ b) →
  search m b = Some (p, r) → search m (a ++ b) = Some (a ++ p, r).
Proof.
  intros Hk Hq Hs. apply search_Some in Hs as (rest & -> & Hm & Hn).
  apply search_Some. exists rest. split; [by rewrite app_assoc|]. split; [done|].
  intros i Hi. rewrite length_app in Hi.
  destruct (decide (i < length a)%nat) as [Hlt|Hge].
  - apply Hk. by apply Hq.
  - rewrite drop_app_ge by lia. apply Hn. lia.
Qed.

Lemma search_here {A} (m : jsstring → option A) (s : jsstring) (r : A) :
  m s = Some r → search m s = Some ([], r).
Proof. intros H. destruct s; simpl; by rewrite H. Qed.

Lemma keyed_stripPrefix (k : jsstring) : keyed k (stripPrefix k).
Proof.
  intros s Hs. destruct (stripPrefix k s) as [r|] eqn:E; [|done].
  apply stripPrefix_Some in E as ->. destruct Hs. by exists r.
Qed.

Lemma keyed_fieldAt (k : jsstring) (close : N) : keyed k (fieldAt k close).
Proof. intros s Hs. unfold fieldAt. by rewrite keyed_stripPrefix. Qed.

Lemma keyed_numberAt : keyed (js "issueNumber: ") numberAt.
Proof. intros s Hs. unfold numberAt. by rewrite keyed_stripPrefix. Qed.

Lemma uptoLast_snoc (c : N) (x : jsstring) : uptoLast c (x ++ [c]) = Some x.
Proof.
  induction x as [|a x IH]; simpl; [by rewrite N.eqb_refl|]. by rewrite IH.
Qed.

Lemma takeWhile_all (p : N → bool) (s : jsstring) :
  Forall (λ c, p c = true) s → takeWhile p s = s.
Proof. intros H. rewrite <- (app_nil_r s) at 1. by apply takeWhile_app. Qed.

(** The field after its key, closed by the quote that ends the line. *)
Lemma fieldAt_hit (k fld post : jsstring) :
  Forall (λ c, isDot c = true) fld →
  match post with
  | [] => True
  | c :: _ => isDot c = false
  end →
  fieldAt k dquote (k ++ fld ++ [dquote] ++ post) = Some fld.
Proof.
  intros Hf Hp. unfold fieldAt. rewrite stripPrefix_app.
  rewrite app_assoc. rewrite takeWhile_app; [apply uptoLast_snoc| |done].
  apply Forall_app. split; [done|]. by repeat constructor.
Qed.

Lemma uintChars_digits (d : Decimal.uint) :
  Forall (λ c, isDigit c = true) (uintChars d).
Proof. induction d; simpl; by constructor. Qed.

Lemma numberToString_digits (n : N) :
  Forall (λ c, isDigit c = true) (numberToString n).
Proof. apply uintChars_digits. Qed.

Lemma numberToString_nonempty (n : N) : numberToString n ≠ [].
Proof.
  unfold numberToString, N.to_uint. destruct n as [|p]; [done|].
  pose proof (Unsigned.to_uint_nonnil p) as H.
  by destruct (Pos.to_uint p).
Qed.

Lemma parseDigits_acc (d : Decimal.uint) (acc : N) :
  fold_left (λ a c, 10 * a + (c - 0x30)) (uintChars d) acc
  = Unsigned.of_lu (Decimal.rev d) + acc * 10 ^ Unsigned.usize d.
Proof.
  revert acc. induction d; intros acc; simpl uintChars; simpl fold_left;
    [simpl; lia|..];
    rewrite IHd; remember (Unsigned.of_lu (Decimal.rev d)) as z;
    unfold Decimal.rev; simpl Decimal.revapp;
    rewrite Unsigned.of_lu_revapp; subst z; simpl Unsigned.of_lu;
    simpl Unsigned.usize; rewrite N.pow_succ_r';
    generalize (10 ^ Unsigned.usize d); intros x;
    generalize (Unsigned.of_lu (Decimal.rev d)); intros z; simpl N.sub; lia.
Qed.

(** An integer is read back from its decimal digits. *)
Lemma parseDigits_numberToString (n : N) : parseDigits (numberToString n) = n.
Proof.
  unfold parseDigits, numberToString. rewrite parseDigits_acc.
  rewrite <- Unsigned.of_uint_alt. change (Pos.of_uint (N.to_uint n)) with (N.of_uint (N.to_uint n)).
  rewrite DecimalN.Unsigned.of_to. lia.
Qed.

Lemma numberAt_hit (n : N) (post : jsstring) :
  match post with
  | [] => True
  | c :: _ => isDigit c = false
  end →
  numberAt (js "issueNumber: " ++ numberToString n ++ post) = Some (numberToString n).
Proof.
  intros Hp. unfold numberAt, digitsAt. rewrite stripPrefix_app.
  rewrite takeWhile_app; [|apply numberToString_digits|done].
  pose proof (numberToString_nonempty n). by destruct (numberToString n).
Qed.

Lemma replaceQuotes_id (r s : jsstring) : (dquote ∉ s) → replaceQuotes r s = s.
Proof.
  induction s as [|c s IH]; simpl; [done|]. intros H.
  apply not_elem_of_cons in H as [Hc Hs].
  destruct (N.eqb_spec c dquote); [congruence|]. simpl. by rewrite IH.
Qed.

Lemma notin_class (p : N → bool) (c : N) (s : jsstring) :
  Forall (λ x, p x = true) s → p c = false → c ∉ s.
Proof.
  intros Hs Hc Hin. rewrite Forall_forall in Hs.
  specialize (Hs _ Hin). congruence.
Qed.

Lemma pad_digits (w : nat) (n : N) : Forall (λ c, isDigit c = true) (pad w n).
Proof.
  unfold pad. apply Forall_app. split; [|apply numberToString_digits].
  induction (w - length (numberToString n))%nat; simpl; by constructor.
Qed.

Lemma digits_iso (s : jsstring) :
  Forall (λ c, isDigit c = true) s → Forall (λ c, isoChar c = true) s.
Proof.
  intros Hs. eapply Forall_impl; [exact Hs|]. intros c H. unfold isoChar. by rewrite H.
Qed.

Lemma yearString_chars (y : Z) : Forall (λ c, isoChar c = true) (yearString y).
Proof.
  unfold yearString. destruct (_ && _)%bool.
  - apply digits_iso, pad_digits.
  - constructor; [by destruct (y <? 0)%Z|]. apply digits_iso, pad_digits.
Qed.

Lemma toISOString_chars (t : Z) : Forall (λ c, isoChar c = true) (toISOString t).
Proof.
  unfold toISOString. destruct (civilFromDays (t / 86400000)) as [[y m] d].
  js_lit. rewrite !Forall_app.
  repeat split;
    first [ apply yearString_chars
          | apply digits_iso, pad_digits
          | by repeat constructor ].
Qed.

Lemma notin_join_quoted (c : N) (tags : list jsstring) :
  c ≠ dquote → c ∉ js ", " → Forall (λ t, c ∉ t) tags →
  c ∉ join (js ", ") (map quoted tags).
Proof.
  intros Hq Hs Ht.
  induction Ht as [|t tags Hc _ IH]; cbn [join map]; [apply not_elem_of_nil|].
  assert (c ∉ quoted t) as Hqt.
  { unfold quoted. rewrite not_elem_of_cons, not_elem_of_app, not_elem_of_cons.
    repeat split; try done. apply not_elem_of_nil. }
  destruct (map quoted tags) as [|q qs] eqn:E; [done|].
  rewrite !not_elem_of_app. by repeat split.
Qed.

Lemma fieldAt_hit_line (k fld rest : jsstring) :
  Forall (λ c, isDot c = true) fld →
  fieldAt k dquote (k ++ fld ++ [dquote; nl] ++ rest) = Some fld.
Proof. intros H. by apply (fieldAt_hit k fld (nl :: rest)). Qed.

Lemma fieldAt_hit_end (k fld : jsstring) :
  Forall (λ c, isDot c = true) fld →
  fieldAt k dquote (k ++ fld ++ [dquote] ++ []) = Some fld.
Proof. intros H. by apply (fieldAt_hit k fld []). Qed.

Lemma join_app (sep : jsstring) (a b : list jsstring) :
  a ≠ [] → b ≠ [] → join sep (a ++ b) = join sep a ++ sep ++ join sep b.
Proof.
  intros Ha Hb. induction a as [|x a IH]; [done|].
  destruct a as [|y a].
  - simpl. by destruct b.
  - change (join sep ((x :: y :: a) ++ b)) with (x ++ sep ++ join sep ((y :: a) ++ b)).
    rewrite IH by done. cbn [join]. by rewrite <- !app_assoc.
Qed.

Lemma quoted_app (s : jsstring) : quoted s = [dquote] ++ s ++ [dquote].
Proof. reflexivity. Qed.

(** The saved document: opening delimiter, front matter, closing
    delimiter, body. *)
Lemma saved_parts (A : GeneratedArticle) :
  saveArticleAsMarkdown A
  = (js "---" ++ [nl]) ++ lines (frontMatter A)
    ++ ([nl] ++ js "---" ++ [nl]) ++ savedBody A.
Proof.
  unfold saveArticleAsMarkdown, savedBody, lines.
  rewrite !join_app by done. cbn [join]. by rewrite <- !app_assoc.
Qed.

(** The front matter, chunk by chunk. *)
Lemma frontMatter_chunks (A : GeneratedArticle) :
  lines (frontMatter A)
  = (js "title: " ++ [dquote]) ++ title A ++ [dquote; nl]
    ++ (js "summary: " ++ [dquote])
    ++ replaceQuotes [0x5C; dquote] (summary A) ++ [dquote; nl]
    ++ js "tags: [" ++ join (js ", ") (map quoted (suggestedTags (metadata A)))
    ++ (js "]" ++ [nl])
    ++ js "issueNumber: " ++ numberToString (issueNumber (metadata A)) ++ [nl]
    ++ (js "generatedAt: " ++ [dquote]) ++ toISOString (generatedAt A) ++ [dquote; nl]
    ++ js "wordCount: " ++ numberToString (wordCount A) ++ [nl]
    ++ (js "tone: " ++ [dquote]) ++ tone (metadata A) ++ [dquote; nl]
    ++ (js "targetAudience: " ++ [dquote]) ++ targetAudience (metadata A)
    ++ [dquote] ++ [].
Proof.
  unfold lines, frontMatter. cbn [join]. rewrite !quoted_app.
  change [dquote; nl] with ([dquote] ++ [nl]). rewrite (app_nil_r [dquote]).
  rewrite <- !app_assoc. reflexivity.
Qed.

Lemma oneLine_Forall (s : jsstring) :
  oneLine s = true → Forall (λ c, isDot c = true) s.
Proof. unfold oneLine. rewrite forallb_forall, Forall_forall. intros H c Hc. apply H. by apply list_elem_of_In. Qed.

Lemma hasChar_notin (c : N) (s : jsstring) : hasChar c s = false → c ∉ s.
Proof.
  unfold hasChar. intros H Hin.
  assert (existsb (N.eqb c) s = true); [|congruence].
  apply existsb_exists. exists c. split; [by apply list_elem_of_In|apply N.eqb_refl].
Qed.

Lemma plainField_facts (s : jsstring) :
  plainField s = true → Forall (λ c, isDot c = true) s ∧ (58 ∉ s) ∧ (10 ∉ s).
Proof.
  unfold plainField. intros [H1 H2%negb_true_iff]%andb_true_iff.
  apply oneLine_Forall in H1. split; [done|]. split; [by apply hasChar_notin|].
  by apply (notin_class isDot).
Qed.

(** A field chunk, by the character [c] the key has at position [p]. *)
Ltac field_at p c :=
  apply (quiet_field _ p c);
  [vm_compute; reflexivity | assumption | vm_compute; reflexivity].

(** The chunk is a literal of the template. *)
Ltac literal a :=
  lazymatch a with
  | js _ => idtac
  | js _ ++ ?b => literal b
  | cons _ ?b => literal b
  | nil => idtac
  end.

(** One chunk: a literal by evaluation, a field by a line break, the
    letter t or the colon of the key. *)
Ltac chunk :=
  lazymatch goal with
  | |- quiet _ (length ?a) (?a ++ ?b) =>
      first
      [ literal a;
        first
        [ apply quiet_lit; vm_compute; reflexivity
        | lazymatch b with
          | ?next ++ _ => literal next; apply quiet_lit_next; vm_compute; reflexivity
          end ]
      | field_at 0%nat 10
      | field_at 0%nat 116
      | field_at 4%nat 58
      | field_at 7%nat 58
      | field_at 11%nat 58
      | field_at 14%nat 58 ]
  end.

(** All the chunks before the line of the key. *)
Ltac peel kd := repeat (eapply search_step; [exact kd | chunk | ]).

Section RoundTrip.

Variable A : GeneratedArticle.
Hypothesis safe : roundTripSafe A = true.

Local Abbreviation T := (title A).
Local Abbreviation S := (summary A).
Local Abbreviation TG := (join (js ", ") (map quoted (suggestedTags (metadata A)))).
Local Abbreviation NUM := (numberToString (issueNumber (metadata A))).
Local Abbreviation G := (toISOString (generatedAt A)).
Local Abbreviation W := (numberToString (wordCount A)).
Local Abbreviation TONE := (tone (metadata A)).
Local Abbreviation TA := (targetAudience (metadata A)).

(** What [roundTripSafe] and the formats of numbers and dates give about
    the fields of the header block. *)
Lemma safe_facts :
  (Forall (λ c, isDot c = true) T ∧ (58 ∉ T) ∧ (10 ∉ T))
  ∧ (Forall (λ c, isDot c = true) S ∧ (58 ∉ S) ∧ (10 ∉ S)) ∧ (dquote ∉ S)
  ∧ ((58 ∉ TG) ∧ (10 ∉ TG))
  ∧ (Forall (λ c, isDot c = true) TONE ∧ (58 ∉ TONE) ∧ (10 ∉ TONE)) ∧ TONE ≠ []
  ∧ (Forall (λ c, isDot c = true) TA ∧ (10 ∉ TA))
  ∧ ((116 ∉ NUM) ∧ (10 ∉ NUM)) ∧ ((116 ∉ G) ∧ (10 ∉ G))
  ∧ ((116 ∉ W) ∧ (10 ∉ W)).
Proof.
  pose proof safe as H. unfold roundTripSafe in H.
  apply andb_true_iff in H as [H H8].
  apply andb_true_iff in H as [H H7].
  apply andb_true_iff in H as [H H6%negb_true_iff].
  apply andb_true_iff in H as [H H5%plainField_facts].
  apply andb_true_iff in H as [H H4].
  apply andb_true_iff in H as [H H3%negb_true_iff].
  apply andb_true_iff in H as [H1%plainField_facts H2%plainField_facts].
  assert (Forall (λ t, 58 ∉ t) (suggestedTags (metadata A))
          ∧ Forall (λ t, 10 ∉ t) (suggestedTags (metadata A))) as [Ht1 Ht2].
  { rewrite forallb_forall in H4.
    split; apply Forall_forall; intros t Ht; apply list_elem_of_In in Ht;
      apply H4, plainField_facts in Ht; tauto. }
  assert (∀ c, c ≠ 44 → c ≠ 32 → c ∉ js ", ") as Hsep.
  { intros c ? ?. js_lit. rewrite !not_elem_of_cons. repeat split; try done.
    apply not_elem_of_nil. }
  split; [done|]. split; [done|]. split; [by apply hasChar_notin|].
  split; [split; apply notin_join_quoted; try done; by apply Hsep|].
  split; [done|]. split; [by apply bool_decide_eq_false in H6|].
  split; [split; [by apply oneLine_Forall|]|].
  { apply (notin_class isDot); [by apply oneLine_Forall|done]. }
  split; [split; apply (notin_class isDigit); try apply numberToString_digits; done|].
  split; [split; apply (notin_class isoChar); try apply toISOString_chars; done|].
  split; apply (notin_class isDigit); try apply numberToString_digits; done.
Qed.

Ltac with_facts :=
  destruct safe_facts as
    ((HT & HTc & HTn) & (HS & HSc & HSn) & HSq & (HGc & HGn) & (HO & HOc & HOn)
     & HOne & (HA & HAn) & (HNt & HNn) & (HIt & HIn) & (HWt & HWn)).

Lemma find_title : matchQuoted "title: " (lines (frontMatter A)) = Some T.
Proof.
  with_facts. unfold matchQuoted. rewrite frontMatter_chunks.
  erewrite search_here; [reflexivity|]. by apply fieldAt_hit_line.
Qed.

Lemma find_summary : matchQuoted "summary: " (lines (frontMatter A)) = Some S.
Proof.
  with_facts. unfold matchQuoted.
  rewrite frontMatter_chunks, (replaceQuotes_id _ S) by done.
  match goal with |- snd <$> ?s = _ => assert (∃ p, s = Some (p, S)) as [p ->] end;
    [|done].
  eexists. peel (keyed_fieldAt (js "summary: " ++ [dquote]) dquote).
  apply search_here. by apply fieldAt_hit_line.
Qed.

Lemma find_issueNumber :
  snd <$> search numberAt (lines (frontMatter A)) = Some NUM.
Proof.
  with_facts.
  rewrite frontMatter_chunks, (replaceQuotes_id _ S) by done.
  match goal with |- snd <$> ?s = _ => assert (∃ p, s = Some (p, NUM)) as [p ->] end;
    [|done].
  eexists. peel keyed_numberAt.
  apply search_here. by apply numberAt_hit.
Qed.

Lemma find_tone : matchQuoted "tone: " (lines (frontMatter A)) = Some TONE.
Proof.
  with_facts. unfold matchQuoted.
  rewrite frontMatter_chunks, (replaceQuotes_id _ S) by done.
  match goal with |- snd <$> ?s = _ => assert (∃ p, s = Some (p, TONE)) as [p ->] end;
    [|done].
  eexists. peel (keyed_fieldAt (js "tone: " ++ [dquote]) dquote).
  apply search_here. by apply fieldAt_hit_line.
Qed.

Lemma find_targetAudience :
  matchQuoted "targetAudience: " (lines (frontMatter A)) = Some TA.
Proof.
  with_facts. unfold matchQuoted.
  rewrite frontMatter_chunks, (replaceQuotes_id _ S) by done.
  match goal with |- snd <$> ?s = _ => assert (∃ p, s = Some (p, TA)) as [p ->] end;
    [|done].
  eexists. peel (keyed_fieldAt (js "targetAudience: " ++ [dquote]) dquote).
  apply search_here. by apply fieldAt_hit_end.
Qed.

Lemma frontmatterMatch_saved :
  frontmatterMatch (saveArticleAsMarkdown A)
  = Some (lines (frontMatter A), savedBody A).
Proof.
  with_facts. unfold frontmatterMatch. rewrite saved_parts, stripPrefix_app.
  rewrite frontMatter_chunks, (replaceQuotes_id _ S) by done.
  rewrite <- !app_assoc.
  peel (keyed_stripPrefix ([nl] ++ js "---" ++ [nl])).
  apply search_here. js_lit. reflexivity.
Qed.

End RoundTrip.

Lemma orElse_Some (s d : jsstring) : s ≠ [] ∨ d = [] → orElse (Some s) d = s.
Proof. intros [H| ->]; by destruct s. Qed.




(** ** Heading lines *)

Lemma headingGroup_sound (k : nat) (r g : jsstring) :
  headingGroup k r = Some g →
  ∃ j, (1 ≤ j ≤ k)%nat ∧ g = drop j r ∧ g ≠ [] ∧ Forall (λ c, isDot c = true) g.
Proof.
  induction k as [|k IH]; simpl; [done|].
  destruct (negb (bool_decide (drop (S k) r = [])) && forallb isDot (drop (S k) r)) eqn:E.
  - intros [= <-]. apply andb_true_iff in E as [E1 E2].
    apply negb_true_iff, bool_decide_eq_false in E1.
    exists (S k). split; [lia|]. split; [done|]. split; [done|].
    rewrite forallb_forall in E2. apply Forall_forall. intros c Hc.
    apply E2. by apply list_elem_of_In.
  - intros H. destruct (IH H) as (j & Hj & Hg). exists j. split; [lia|done].
Qed.

Lemma headingGroup_complete (k j : nat) (r : jsstring) :
  (1 ≤ j ≤ k)%nat → drop j r ≠ [] → Forall (λ c, isDot c = true) (drop j r) →
  ∃ j', (j ≤ j' ≤ k)%nat ∧ headingGroup k r = Some (drop j' r).
Proof.
  intros Hj Hne Hdot. induction k as [|k IH]; [lia|]. simpl.
  destruct (negb (bool_decide (drop (S k) r = [])) && forallb isDot (drop (S k) r)) eqn:E.
  - exists (S k). split; [lia|done].
  - destruct (decide (j = S k)) as [->|Hlt].
    + exfalso. apply andb_false_iff in E as [E|E].
      * apply negb_false_iff, bool_decide_eq_true in E. done.
      * assert (forallb isDot (drop (S k) r) = true); [|congruence].
        apply forallb_forall. intros c Hc. rewrite Forall_forall in Hdot.
        apply Hdot. by apply list_elem_of_In.
    + destruct IH as (j' & Hj' & H); [lia|]. exists j'. split; [lia|done].
Qed.

Lemma dropWhile_all (p : N → bool) (sp x : jsstring) :
  Forall (λ c, p c = true) sp → dropWhile p (sp ++ x) = dropWhile p x.
Proof. intros H. induction H as [|c sp Hc _ IH]; simpl; [done|]. by rewrite Hc. Qed.

Lemma takeWhile_length_ge (p : N → bool) (sp x : jsstring) :
  Forall (λ c, p c = true) sp → (length sp ≤ length (takeWhile p (sp ++ x)))%nat.
Proof.
  intros H. induction H as [|c sp Hc _ IH]; simpl; [lia|]. rewrite Hc. simpl. lia.
Qed.

(** A heading line is two hashes, whitespace and a name that reaches the
    end of the line without a line terminator; the section is called by
    the trimmed name. *)
Lemma headingName_spec (line name : jsstring) :
  headingName line = Some name ↔
  ∃ ws g, line = js "##" ++ ws ++ g
    ∧ ws ≠ [] ∧ Forall (λ c, isSpace c = true) ws
    ∧ g ≠ [] ∧ Forall (λ c, isDot c = true) g
    ∧ name = trim g.
Proof.
  unfold headingName, sectionMatch. split.
  - destruct (stripPrefix (js "##") line) as [r|] eqn:E; [|done].
    apply stripPrefix_Some in E as ->.
    destruct (headingGroup _ r) as [g|] eqn:Eg; [|done].
    intros [= <-]. apply headingGroup_sound in Eg as (j & Hj & -> & Hne & Hdot).
    exists (take j r), (drop j r). rewrite take_drop.
    split; [done|]. split.
    { intros Ht. apply (f_equal length) in Ht. rewrite length_take in Ht. simpl in Ht.
      assert (length (takeWhile isSpace r) ≤ length r)%nat.
      { rewrite <- (takeWhile_dropWhile isSpace r) at 2. rewrite length_app. lia. }
      lia. }
    split; [|done].
    rewrite <- (takeWhile_dropWhile isSpace r).
    rewrite take_app_le by lia. apply Forall_take, takeWhile_Forall.
  - intros (ws & g & -> & Hws & Hsp & Hg & Hdot & ->).
    rewrite stripPrefix_app.
    destruct (headingGroup_complete (length (takeWhile isSpace (ws ++ g))) (length ws) (ws ++ g))
      as (j' & Hj' & ->).
    + split; [by destruct ws; simpl; [|lia]|]. by apply takeWhile_length_ge.
    + by rewrite drop_app_length.
    + by rewrite drop_app_length.
    + simpl. f_equal.
      assert (drop (length ws) (ws ++ g) = take (j' - length ws) g ++ drop j' (ws ++ g)) as Hsplit.
      { rewrite drop_app_length. rewrite drop_app_ge by lia. by rewrite take_drop. }
      rewrite drop_app_length in Hsplit. rewrite Hsplit at 2.
      unfold trim, trimStart. f_equal. symmetry. apply dropWhile_all.
      assert (Forall (λ c, isSpace c = true) (take j' (ws ++ g))) as Hpre.
      { rewrite <- (takeWhile_dropWhile isSpace (ws ++ g)).
        rewrite take_app_le by lia. apply Forall_take, takeWhile_Forall. }
      rewrite take_app_ge in Hpre by lia. by apply Forall_app in Hpre as [_ Hpre].
Qed.

Example heading_localized : headingName (js "##  テーマ ") = Some (js "テーマ").
Proof. reflexivity. Qed.

(** A line that ends with a carriage return opens no section. *)
Example heading_crlf : headingName (js "## テーマ" ++ [0x0D]) = None.
Proof. reflexivity. Qed.

(** ** The model on sample inputs *)

Example toISOString_epoch : toISOString 0 = js "1970-01-01T00:00:00.000Z".
Proof. vm_compute. reflexivity. Qed.

Example toISOString_before_epoch : toISOString (-1) = js "1969-12-31T23:59:59.999Z".
Proof. vm_compute. reflexivity. Qed.

Example toISOString_leap_day : toISOString 951782400000 = js "2000-02-29T00:00:00.000Z".
Proof. vm_compute. reflexivity. Qed.

Example saved_article1 :
  saveArticleAsMarkdown article1 = lines [
    js "---";
    js "title: " ++ quoted (js "Rust入門");
    js "summary: " ++ quoted (js "要約");
    js "tags: [" ++ quoted (js "rust") ++ js ", " ++ quoted (js "入門") ++ js "]";
    js "issueNumber: 42";
    js "generatedAt: " ++ quoted (js "2023-11-14T22:13:20.123Z");
    js "wordCount: 8";
    js "tone: " ++ quoted (js "technical");
    js "targetAudience: " ++ quoted (js "初心者");
    js "---";
    js "";
    js "# Rust入門";
    js "";
    js "本文 です。";
    js "二行目";
    js "";
    js "---";
    js "";
    js "*この記事はAIによって生成されました。*";
    js "" ].
Proof. vm_compute. reflexivity. Qed.

(** The body of a saved document starts with an empty line and ends with a
    line break: the regeneration loader strips neither the title line nor
    the footer, and counts their characters. *)
Example reloaded_article1 :
  (λ a, (content a, wordCount a)) <$> Regenerate.loadArticle 7 (saveArticleAsMarkdown article1)
  = Ok (lines [
      js "# Rust入門"; js ""; js "本文 です。"; js "二行目"; js ""; js "---"; js "";
      js "*この記事はAIによって生成されました。*" ], 39).
Proof. vm_compute. reflexivity. Qed.

Example exported_tags_article1 :
  (λ a, suggestedTags (metadata a)) <$> Publish.loadArticle 7 (saveArticleAsMarkdown article1)
  = Ok [js "rust"; js "入門"].
Proof. vm_compute. reflexivity. Qed.

Example request_of_issue1 :
  parseIssueToArticleRequest issue1 =
  {| theme := js "Rustの所有権"; req_targetAudience := Some [];
     req_tone := Some business; targetLength := Some 1500;
     additionalInstructions := Some [];
     references := Some [js "http://a.com/x"; js "https://b.com/y"] |}.
Proof. vm_compute. reflexivity. Qed.
